(** * DocForge: page-range parsing, range grouping, split naming and the
    compression fallback.

    Shallow embedding of
    - [parsePageRanges] (the split page of the UI, src/unnamed/part_000),
    - the PDF branch of [createSplitDocuments] and
    - the PDF branch of [createProcessedDocument]
      (src/src/utils/downloadUtils.ts);
    and, further on, of the text and binary branches of
    [createSplitDocuments], the image and other branches of
    [createProcessedDocument], [createMergedDocument], the handlers
    [handleFileSelect] and [handleSplit] of the split page, and
    [handleFileUpload], [removeFile], [compressFiles] and the download name
    of the compress page (src/src/components/CompressFiles.tsx).

    JavaScript numbers are modelled as [Z].  The only places where the
    double representation could matter are integers above 2^53 (or with more
    than 20 significant digits) read by [parseInt]; such values are always
    rejected by the [<= totalPages] tests, before and after rounding, so the
    accept/drop decisions of the code are the ones computed here.
    Strings are Stdlib [string]s of ASCII characters; the whitespace of
    [String.prototype.trim] and [parseInt] is its ASCII part
    (TAB, LF, VT, FF, CR, SPACE). *)

From Stdlib Require Import String Ascii ZArith List Bool Lia Sorted Permutation.
Import ListNotations.
Open Scope Z_scope.

(* ------------------------------------------------------------------ *)
(** ** JavaScript string and number primitives *)

Module JS.

Definition is_ws (c : ascii) : bool :=
  let n := nat_of_ascii c in
  ((9 <=? n)%nat && (n <=? 13)%nat) || (n =? 32)%nat.

Fixpoint trim_start (s : string) : string :=
  match s with
  | EmptyString => EmptyString
  | String c r => if is_ws c then trim_start r else s
  end.

Fixpoint rev_str (s : string) (acc : string) : string :=
  match s with
  | EmptyString => acc
  | String c r => rev_str r (String c acc)
  end.

(** [String.prototype.trim] *)
Definition trim (s : string) : string :=
  rev_str (trim_start (rev_str (trim_start s) EmptyString)) EmptyString.

(** [String.prototype.split(sep)] for a one-character separator. *)
Fixpoint split (sep : ascii) (s : string) : list string :=
  match s with
  | EmptyString => [EmptyString]
  | String c r =>
      let parts := split sep r in
      if Ascii.eqb c sep then EmptyString :: parts
      else match parts with
           | p :: ps => String c p :: ps
           | [] => [String c EmptyString]
           end
  end.

(** [String.prototype.includes(c)] for a one-character argument. *)
Fixpoint includes (c : ascii) (s : string) : bool :=
  match s with
  | EmptyString => false
  | String d r => Ascii.eqb d c || includes c r
  end.

(** Value of a digit in radix 10 or 16. *)
Definition digit_val (radix : Z) (c : ascii) : option Z :=
  let n := Z.of_nat (nat_of_ascii c) in
  let d :=
    if (48 <=? n) && (n <=? 57) then Some (n - 48)
    else if (97 <=? n) && (n <=? 122) then Some (n - 87)
    else if (65 <=? n) && (n <=? 90) then Some (n - 55)
    else None in
  match d with
  | Some v => if v <? radix then Some v else None
  | None => None
  end.

(** Longest prefix of radix digits: its value and its length. *)
Fixpoint read_digits (radix : Z) (s : string) (acc : Z) (n : nat) : Z * nat :=
  match s with
  | EmptyString => (acc, n)
  | String c r =>
      match digit_val radix c with
      | Some d => read_digits radix r (acc * radix + d) (S n)
      | None => (acc, n)
      end
  end.

(** [parseInt(s)] with no radix argument (ECMA-262, 19.2.5); [None] is NaN. *)
Definition parseInt (s : string) : option Z :=
  let s1 := trim_start s in
  let '(sign, s2) :=
    match s1 with
    | String "-" r => (-1, r)
    | String "+" r => (1, r)
    | _ => (1, s1)
    end in
  let '(radix, s3) :=
    match s2 with
    | String "0" (String x r) =>
        if Ascii.eqb x "x" || Ascii.eqb x "X" then (16, r) else (10, s2)
    | _ => (10, s2)
    end in
  match read_digits radix s3 0 0 with
  | (_, O) => None
  | (v, S _) => Some (sign * v)
  end.

End JS.

(* ------------------------------------------------------------------ *)
(** ** [parsePageRanges] *)

Module Parse.
Import JS.

(** [for (let i = start; i <= end; i++) pages.push(i)] *)
Definition zrange (start end_ : Z) : list Z :=
  map (fun k => start + Z.of_nat k) (seq 0 (Z.to_nat (end_ - start + 1))).

(** Pages pushed for one (already trimmed) comma-delimited token. *)
Definition token_pages (totalPages : Z) (range : string) : list Z :=
  if includes "-" range then
    (* const [start, end] = range.split('-').map(n => parseInt(n.trim())) *)
    match map (fun n => parseInt (trim n)) (split "-" range) with
    | Some start :: Some end_ :: _ =>
        if (0 <? start) && (end_ <=? totalPages) && (start <=? end_)
        then zrange start end_ else []
    | _ => []
    end
  else
    match parseInt range with
    | Some page => if (0 <? page) && (page <=? totalPages) then [page] else []
    | None => []
    end.

(** [[...new Set(pages)]]: first occurrences, in insertion order. *)
Definition dedup_step (acc : list Z) (x : Z) : list Z :=
  if existsb (Z.eqb x) acc then acc else acc ++ [x].

Definition dedup (l : list Z) : list Z := fold_left dedup_step l [].

(** [.sort((a, b) => a - b)], as a stable insertion sort. *)
Fixpoint insert (x : Z) (l : list Z) : list Z :=
  match l with
  | [] => [x]
  | y :: t => if x <=? y then x :: y :: t else y :: insert x t
  end.

Fixpoint sort (l : list Z) : list Z :=
  match l with
  | [] => []
  | x :: t => insert x (sort t)
  end.

Definition pages_of (rangeStr : string) (totalPages : Z) : list Z :=
  concat (map (token_pages totalPages) (map trim (split "," rangeStr))).

Definition parsePageRanges (rangeStr : string) (totalPages : Z) : list Z :=
  sort (dedup (pages_of rangeStr totalPages)).

End Parse.

(* ------------------------------------------------------------------ *)
(** ** Naming: [Number.prototype.toString] and [String.prototype.replace] *)

Module Naming.

Fixpoint digits (fuel : nat) (n : Z) (acc : string) : string :=
  match fuel with
  | O => acc
  | S f =>
      let acc' := String (ascii_of_nat (48 + Z.to_nat (n mod 10))) acc in
      if n <? 10 then acc' else digits f (n / 10) acc'
  end.

(** [n.toString()] for an integer [n]. *)
Definition to_string (n : Z) : string :=
  match n with
  | Z0 => "0"
  | Zpos p => digits (Pos.size_nat p) (Zpos p) EmptyString
  | Zneg p => String "-" (digits (Pos.size_nat p) (Zpos p) EmptyString)
  end.

(** [s.replace(pat, rep)] with a string pattern: only the first occurrence
    (the one found by [indexOf]) is replaced.  The replacement strings used by
    the code contain no [$], so no replacement patterns are expanded. *)
Fixpoint replace_first (pat rep s : string) : string :=
  if prefix pat s
  then (rep ++ substring (String.length pat) (String.length s - String.length pat) s)%string
  else match s with
       | EmptyString => s
       | String c r => String c (replace_first pat rep r)
       end.

(** The placeholder substituted by the split. *)
Definition placeholder : string := "{n}".

Definition last_page (range : list Z) : Z := last range 0.
Definition first_page (range : list Z) : Z := hd 0 range.

(** [fileName] of [createSplitDocuments] for one range (a list of pages). *)
Definition fileName (namingPattern : string) (range : list Z) : string :=
  if (length range =? 1)%nat
  then replace_first placeholder (to_string (first_page range)) namingPattern
  else replace_first placeholder
         (to_string (first_page range) ++ "-" ++ to_string (last_page range))%string
         namingPattern.

(** [fullFileName = `${fileName}.pdf`] *)
Definition fullFileName (namingPattern : string) (range : list Z) : string :=
  (fileName namingPattern range ++ ".pdf")%string.

End Naming.

(* ------------------------------------------------------------------ *)
(** ** [createSplitDocuments], PDF branch *)

Module Split.
Import Naming.

(** The [sortedPages.forEach] loop.  [prev] is [sortedPages[index - 1]]
    ([None] at [index === 0]), [cur] is [currentRange] and [ranges] the
    ranges pushed so far.  Out-of-range pages are skipped ([return]) but
    still are the [sortedPages[index - 1]] of the next page. *)
Fixpoint group_aux (totalPages : Z) (prev : option Z) (cur : list Z)
    (ranges : list (list Z)) (l : list Z) : list (list Z) :=
  match l with
  | [] => (* Add the last range *)
      match cur with [] => ranges | _ => ranges ++ [cur] end
  | page :: t =>
      let pageIndex := page - 1 in
      if (pageIndex <? 0) || (totalPages <=? pageIndex)
      then group_aux totalPages (Some page) cur ranges t
      else
        let start_new :=
          group_aux totalPages (Some page) [page]
            (match cur with [] => ranges | _ => ranges ++ [cur] end) t in
        match prev with
        | None => start_new
        | Some q =>
            if negb (page =? q + 1) then start_new
            else group_aux totalPages (Some page) (cur ++ [page]) ranges t
        end
  end.

(** [ranges] computed from [pageNumbers]; the pages are sorted first. *)
Definition ranges_of (totalPages : Z) (pageNumbers : list Z) : list (list Z) :=
  group_aux totalPages None [] [] (Parse.sort pageNumbers).

(** A range as the pair [(range[0], range[range.length - 1])]. *)
Definition bounds (range : list Z) : Z * Z := (first_page range, last_page range).

(** The compacted selection: the ranges as [(start, end)] pairs. *)
Definition compact (totalPages : Z) (pageNumbers : list Z) : list (Z * Z) :=
  map bounds (ranges_of totalPages pageNumbers).

(** The integer span of a Range [(start, end)]. *)
Definition span (r : Z * Z) : list Z := Parse.zrange (fst r) (snd r).

Definition flatten (rs : list (Z * Z)) : list Z := concat (map span rs).

Record output (Blob : Type) := mkOutput { name : string; content : Blob }.
Arguments mkOutput {Blob}.
Arguments name {Blob}.
Arguments content {Blob}.

(** [Promise.all]: all results in order, or the first rejection. *)
Fixpoint all_opt {A : Type} (l : list (option A)) : option (list A) :=
  match l with
  | [] => Some []
  | None :: _ => None
  | Some x :: t =>
      match all_opt t with Some xs => Some (x :: xs) | None => None end
  end.

Section SplitPdf.
(** The pdf-lib document: its page count, and the bytes of a new document
    made of the given 0-based page indices ([create], [copyPages],
    [addPage], [save]); [None] is a rejected promise. *)
Variable PdfDoc Blob : Type.
Variable getPageCount : PdfDoc -> Z.
Variable save_pages : PdfDoc -> list Z -> option Blob.

Definition split_one (pdfDoc : PdfDoc) (namingPattern : string)
    (range : list Z) : option (output Blob) :=
  let pageIndices := map (fun p => p - 1) range in
  match save_pages pdfDoc pageIndices with
  | Some bytes => Some (mkOutput (fullFileName namingPattern range) bytes)
  | None => None
  end.

(** [createSplitDocuments] on a PDF file, [load] being [PDFDocument.load]
    on its content; [None] is the thrown [Failed to split PDF file]. *)
Definition createSplitDocuments_pdf (load : option PdfDoc)
    (pageNumbers : list Z) (namingPattern : string) : option (list (output Blob)) :=
  match load with
  | None => None
  | Some pdfDoc =>
      let totalPages := getPageCount pdfDoc in
      all_opt (map (split_one pdfDoc namingPattern) (ranges_of totalPages pageNumbers))
  end.

End SplitPdf.

End Split.

(* ------------------------------------------------------------------ *)
(** ** [createProcessedDocument] *)

Module Compress.

Record Blob := mkBlob { blob_bytes : list Byte.byte; blob_type : string }.

Definition lower (c : ascii) : ascii :=
  let n := nat_of_ascii c in
  if ((65 <=? n)%nat && (n <=? 90)%nat) then ascii_of_nat (n + 32) else c.

Fixpoint to_lower (s : string) : string :=
  match s with
  | EmptyString => EmptyString
  | String c r => String (lower c) (to_lower r)
  end.

(** [originalFile.name.split('.').pop()?.toLowerCase()] *)
Definition fileExtension (name : string) : string :=
  to_lower (last (JS.split "." name) EmptyString).

Section Compression.
(** The pdf-lib document type, [PDFDocument.load] on the file content, and
    the four compression attempts of the PDF branch, numbered 1 to 4: for a
    compression level and the loaded document, attempt [k] copies the pages
    into a fresh document when [k > 1] and saves it with the options of that
    attempt.  [None] is a thrown error or rejected promise. *)
Variable PdfDoc : Type.
Variable load : list Byte.byte -> option PdfDoc.
Variable attempt : string -> nat -> PdfDoc -> option (list Byte.byte).
(** The result of the image branch and of the other file types. *)
Variable other : string -> list Byte.byte -> string -> Blob.

(** [if (compressedPdfBytes.length >= arrayBuffer.byteLength) { ... }] *)
Definition retry (arrayBuffer : list Byte.byte) (level : string) (k : nat)
    (pdfDoc : PdfDoc) (r : option (list Byte.byte)) : option (list Byte.byte) :=
  match r with
  | None => None
  | Some bytes =>
      if (length arrayBuffer <=? length bytes)%nat then attempt level k pdfDoc
      else Some bytes
  end.

(** The [try] block of the PDF branch; any error goes to the [catch], which
    returns the original content. *)
Definition compress_pdf (level : string) (arrayBuffer : list Byte.byte)
    (fileType : string) : Blob :=
  let original := mkBlob arrayBuffer fileType in
  match load arrayBuffer with
  | None => original
  | Some pdfDoc =>
      let r := retry arrayBuffer level 4 pdfDoc
                 (retry arrayBuffer level 3 pdfDoc
                   (retry arrayBuffer level 2 pdfDoc
                     (attempt level 1 pdfDoc))) in
      match r with
      | None => original
      | Some compressedPdfBytes =>
          if (length arrayBuffer <=? length compressedPdfBytes)%nat
          then original
          else mkBlob compressedPdfBytes "application/pdf"
      end
  end.

(** [createProcessedDocument(originalFile, newFilename, compressionLevel)]
    on a file of the given name, content and MIME type.  [!compressionLevel]
    holds for an absent level and for the empty string. *)
Definition createProcessedDocument (name : string) (arrayBuffer : list Byte.byte)
    (fileType : string) (compressionLevel : option string) : Blob :=
  match compressionLevel with
  | None => mkBlob arrayBuffer fileType
  | Some level =>
      if String.eqb level EmptyString then mkBlob arrayBuffer fileType
      else if String.eqb (fileExtension name) "pdf"
      then compress_pdf level arrayBuffer fileType
      else other (fileExtension name) arrayBuffer fileType
  end.

End Compression.

End Compress.

(* ------------------------------------------------------------------ *)
(** ** Readings of the specification

    Definitions that follow the words of the specification rather than the
    code, to be compared with the embedding above. *)

Module SpecReading.
Import JS Parse Naming.

(** A decimal integer literal: a non-empty run of the digits 0-9. *)
Fixpoint dec_digits (s : string) (acc : Z) : option Z :=
  match s with
  | EmptyString => Some acc
  | String c r =>
      let d := Z.of_nat (nat_of_ascii c) - 48 in
      if (0 <=? d) && (d <=? 9) then dec_digits r (acc * 10 + d) else None
  end.

Definition dec_literal (s : string) : option Z :=
  match s with
  | EmptyString => None
  | _ => dec_digits s 0
  end.

(** The spec's token rules: a token is a single integer literal or two
    integer literals separated by one hyphen; every other token is
    dropped. *)
Definition spec_token_pages (totalPages : Z) (tok : string) : list Z :=
  match split "-" tok with
  | [t] =>
      match dec_literal t with
      | Some v => if (1 <=? v) && (v <=? totalPages) then [v] else []
      | None => []
      end
  | [a; b] =>
      match dec_literal (trim a), dec_literal (trim b) with
      | Some x, Some y =>
          if (0 <? x) && (y <=? totalPages) && (x <=? y) then zrange x y else []
      | _, _ => []
      end
  | _ => []
  end.

Definition spec_pages (rangeStr : string) (totalPages : Z) : list Z :=
  concat (map (spec_token_pages totalPages) (map trim (split "," rangeStr))).

(** The accept rule of the code, token by token: [parseInt] readings, and for
    a token with a hyphen the first two hyphen-separated fields. *)
Definition accepted (totalPages : Z) (tok : string) (p : Z) : Prop :=
  (includes "-" tok = true /\
   exists f1 f2 rest a b,
     split "-" tok = f1 :: f2 :: rest /\
     parseInt (trim f1) = Some a /\ parseInt (trim f2) = Some b /\
     0 < a /\ b <= totalPages /\ a <= b /\ a <= p <= b)
  \/ (includes "-" tok = false /\ parseInt tok = Some p /\ 1 <= p <= totalPages).

(** A string made only of whitespace and commas. *)
Fixpoint only_ws_commas (s : string) : bool :=
  match s with
  | EmptyString => true
  | String c r => (is_ws c || Ascii.eqb c ",") && only_ws_commas r
  end.

(** [pat] occurs in [s]. *)
Fixpoint contains (pat s : string) : bool :=
  prefix pat s ||
  match s with
  | EmptyString => false
  | String _ r => contains pat r
  end.

(** Substitution of every occurrence of [pat]. *)
Fixpoint replace_all_aux (fuel : nat) (pat rep s : string) : string :=
  match fuel with
  | O => s
  | S f =>
      if prefix pat s
      then (rep ++ replace_all_aux f pat rep
              (substring (String.length pat) (String.length s - String.length pat) s))%string
      else match s with
           | EmptyString => s
           | String c r => String c (replace_all_aux f pat rep r)
           end
  end.

Definition replace_all (pat rep s : string) : string :=
  replace_all_aux (S (String.length s)) pat rep s.

(** The placeholder value the spec gives for a Range [(start, end)]. *)
Definition range_label (start end_ : Z) : string :=
  if start =? end_ then to_string start
  else (to_string start ++ "-" ++ to_string end_)%string.

(** A compression attempt that throws or does not make the file smaller. *)
Definition no_gain (arrayBuffer : list Byte.byte) (r : option (list Byte.byte)) : Prop :=
  r = None \/ exists b, r = Some b /\ (length arrayBuffer <= length b)%nat.

End SpecReading.

(* ------------------------------------------------------------------ *)
(** ** Maximal runs, used to describe what the grouping loop computes *)

Module Runs.
Import Parse Naming.

(** Grouping of [l] after the open run [cur]: a page equal to the last page
    of [cur] plus one extends it, any other page closes it. *)
Fixpoint runs (cur : list Z) (l : list Z) : list (list Z) :=
  match l with
  | [] => [cur]
  | p :: t =>
      if p =? last cur 0 + 1 then runs (cur ++ [p]) t else cur :: runs [p] t
  end.

(** Number of adjacent pairs of [l] that are not consecutive integers. *)
Fixpoint breaks (l : list Z) : nat :=
  match l with
  | x :: ((y :: _) as t) => ((if (y =? x + 1)%Z then 0 else 1) + breaks t)%nat
  | _ => 0%nat
  end.

(** A non-empty run of consecutive integers. *)
Definition is_run (r : list Z) : Prop :=
  r <> [] /\ r = zrange (first_page r) (last_page r).

(** Two Ranges that cannot be merged, the second after the first. *)
Definition apart (r1 r2 : Z * Z) : Prop := snd r1 + 1 < fst r2.

End Runs.

(* ------------------------------------------------------------------ *)
(** ** Files, array slices and the other branches of [createSplitDocuments] *)

Module Files.

(** A browser [File]: its [name], its MIME [type] and its content
    ([arrayBuffer()]); [file.size] is the length of the content. *)
Record File := mkFile {
  file_name : string;
  file_type : string;
  file_bytes : list Byte.byte
}.

Definition size (f : File) : Z := Z.of_nat (length (file_bytes f)).

(** [50 * 1024 * 1024], the size limit of the split and compress pages. *)
Definition maxFileSize : Z := 50 * 1024 * 1024.

(** [originalFile.name.split('.').pop()?.toLowerCase() || 'pdf'] *)
Definition originalExtension (name : string) : string :=
  match Compress.fileExtension name with
  | EmptyString => "pdf"
  | e => e
  end.

End Files.

Module Slices.

(** [Math.ceil(a / b)] for [a >= 0] and [b > 0].  The quotient of the code is
    a double; for [a < 2^52] its rounding error is below [1/b], so the
    ceiling is the integer one.  With [b = 0] (no page numbers) the value is
    never used: the [map] over the page numbers is empty. *)
Definition ceil_div (a b : Z) : Z := (a + b - 1) / b.

(** [Array.prototype.slice] and [ArrayBuffer.prototype.slice] for
    non-negative bounds: the end is clamped to the length, and an end before
    the start gives an empty slice. *)
Definition slice {A : Type} (l : list A) (start end_ : Z) : list A :=
  firstn (Z.to_nat end_ - Z.to_nat start) (skipn (Z.to_nat start) l).

(** [Array.prototype.join(sep)] *)
Fixpoint join (sep : string) (l : list string) : string :=
  match l with
  | [] => EmptyString
  | [x] => x
  | x :: t => (x ++ sep ++ join sep t)%string
  end.

(** [arr.map((x, index) => f(index, x))] *)
Fixpoint mapi_from {A B : Type} (f : nat -> A -> B) (i : nat) (l : list A) : list B :=
  match l with
  | [] => []
  | x :: t => f i x :: mapi_from f (S i) t
  end.

Definition mapi {A B : Type} (f : nat -> A -> B) (l : list A) : list B := mapi_from f 0 l.

(** The line separator ['\n']. *)
Definition newline : string := String "010" EmptyString.

End Slices.

Module SplitOther.
Import Naming Split Slices Files.

(** [`${namingPattern.replace('{n}', pageNum.toString())}.${originalExtension}`] *)
Definition page_name (namingPattern : string) (pageNum : Z) (ext : string) : string :=
  (replace_first placeholder (to_string pageNum) namingPattern ++ "." ++ ext)%string.

(** The value substituted for the placeholder in the name of a PDF range. *)
Definition range_text (range : list Z) : string :=
  if (length range =? 1)%nat then to_string (first_page range)
  else (to_string (first_page range) ++ "-" ++ to_string (last_page range))%string.

(** The lines of page [index] in the text branch. *)
Definition text_chunk (lines : list string) (linesPerPage : Z) (index : nat) : list string :=
  let startLine := Z.of_nat index * linesPerPage in
  let endLine := Z.min (startLine + linesPerPage) (Z.of_nat (length lines)) in
  slice lines startLine endLine.

(** The bytes of part [index] in the binary branch. *)
Definition byte_chunk (content : list Byte.byte) (chunkSize : Z) (index : nat) : list Byte.byte :=
  let byteLength := Z.of_nat (length content) in
  let startOffset := Z.of_nat index * chunkSize in
  let endOffset := Z.min (startOffset + chunkSize) byteLength in
  (* Ensure we don't create empty chunks *)
  let actualEndOffset := if startOffset <? endOffset then endOffset else byteLength in
  slice content startOffset actualEndOffset.

Section Branches.
(** [new Blob([pageContent])] stores the UTF-8 encoding of a string. *)
Variable encode : string -> list Byte.byte.

(** The text branch, on the text [text] of the file. *)
Definition split_text (text fileType ext namingPattern : string) (pageNumbers : list Z)
    : list (output Compress.Blob) :=
  let lines := JS.split "010" text in
  let linesPerPage := ceil_div (Z.of_nat (length lines)) (Z.of_nat (length pageNumbers)) in
  mapi (fun index pageNum =>
          let pageContent := join newline (text_chunk lines linesPerPage index) in
          mkOutput (page_name namingPattern pageNum ext)
                   (Compress.mkBlob (encode pageContent) fileType))
       pageNumbers.

(** The binary branch (DOCX, PPTX, ...). *)
Definition split_binary (content : list Byte.byte) (fileType ext namingPattern : string)
    (pageNumbers : list Z) : list (output Compress.Blob) :=
  let chunkSize := ceil_div (Z.of_nat (length content)) (Z.of_nat (length pageNumbers)) in
  mapi (fun index pageNum =>
          mkOutput (page_name namingPattern pageNum ext)
                   (Compress.mkBlob (byte_chunk content chunkSize index) fileType))
       pageNumbers.

(** pdf-lib: [PDFDocument.load], [getPageCount], and the saved bytes of a
    new document made of the given 0-based page indices. *)
Variable PdfDoc : Type.
Variable load : list Byte.byte -> option PdfDoc.
Variable getPageCount : PdfDoc -> Z.
Variable save : PdfDoc -> list Z -> option (list Byte.byte).
(** [originalFile.text()] *)
Variable decode : list Byte.byte -> string.

Definition save_blob (pdfDoc : PdfDoc) (pageIndices : list Z) : option Compress.Blob :=
  match save pdfDoc pageIndices with
  | Some newPdfBytes => Some (Compress.mkBlob newPdfBytes "application/pdf")
  | None => None
  end.

(** [createSplitDocuments(originalFile, pageNumbers, namingPattern)];
    [None] is a thrown error. *)
Definition createSplitDocuments (originalFile : File) (pageNumbers : list Z)
    (namingPattern : string) : option (list (output Compress.Blob)) :=
  let ext := originalExtension (file_name originalFile) in
  if prefix "text/" (file_type originalFile) || String.eqb ext "txt"
  then Some (split_text (decode (file_bytes originalFile)) (file_type originalFile)
               ext namingPattern pageNumbers)
  else if String.eqb ext "pdf"
  then createSplitDocuments_pdf PdfDoc Compress.Blob getPageCount save_blob
         (load (file_bytes originalFile)) pageNumbers namingPattern
  else Some (split_binary (file_bytes originalFile) (file_type originalFile)
               ext namingPattern pageNumbers).

End Branches.

End SplitOther.

(* ------------------------------------------------------------------ *)
(** ** The split page: [handleFileSelect] and [handleSplit] *)

Module SplitPage.
Import Naming Split Files SplitOther.

(** The state the two handlers read and write. *)
Record SplitState := mkSplitState {
  uploadedFile : option File;
  totalPages : Z
}.

Definition initialState : SplitState := mkSplitState None 0.

(** [uploadedFile.name.replace('.pdf', '')] *)
Definition baseName (name : string) : string := replace_first ".pdf" "" name.

(** [`${baseName}_part{n}`] *)
Definition split_pattern (name : string) : string := (baseName name ++ "_part{n}")%string.

Inductive split_outcome :=
| NoFile                                   (* [if (!uploadedFile) return] *)
| InvalidRange                             (* the "Invalid page range" toast *)
| SplitFailed                              (* the "Split failed" toast *)
| SplitDone (files : list (output Compress.Blob)).

Section Handlers.
Variable encode : string -> list Byte.byte.
Variable PdfDoc : Type.
Variable load : list Byte.byte -> option PdfDoc.
Variable getPageCount : PdfDoc -> Z.
Variable save : PdfDoc -> list Z -> option (list Byte.byte).
Variable decode : list Byte.byte -> string.

(** [handleFileSelect(files)]: the type and size checks, then
    [PDFDocument.load] to read the page count; a load error only shows a
    toast. *)
Definition handleFileSelect (st : SplitState) (files : list File) : SplitState :=
  match files with
  | [] => st
  | file :: _ =>
      let extension := ("." ++ Compress.fileExtension (file_name file))%string in
      if negb (existsb (String.eqb extension) [".pdf"%string]) then st
      else if maxFileSize <? size file then st
      else match load (file_bytes file) with
           | Some pdfDoc => mkSplitState (Some file) (getPageCount pdfDoc)
           | None => st
           end
  end.

(** The state after a sequence of file selections. *)
Definition select_all (st : SplitState) (selections : list (list File)) : SplitState :=
  fold_left handleFileSelect selections st.

(** [handleSplit()] with the current file, range text and page count. *)
Definition handleSplit (uploaded : option File) (splitRange : string) (total : Z)
    : split_outcome :=
  match uploaded with
  | None => NoFile
  | Some file =>
      match Parse.parsePageRanges splitRange total with
      | [] => InvalidRange
      | pageNumbers =>
          match createSplitDocuments encode PdfDoc load getPageCount save decode
                  file pageNumbers (split_pattern (file_name file)) with
          | Some splitResults => SplitDone splitResults
          | None => SplitFailed
          end
      end
  end.

End Handlers.

End SplitPage.

(* ------------------------------------------------------------------ *)
(** ** The non-PDF branches of [createProcessedDocument] *)

Module ProcessOther.
Import Compress.

(** [getQualityFromLevel], in hundredths. *)
Definition getQualityFromLevel (level : string) : Z :=
  if String.eqb level "light" then 70
  else if String.eqb level "medium" then 50
  else if String.eqb level "high" then 30
  else if String.eqb level "custom" then 50
  else 50.

Section Other.
(** The [Image] decoded from the object URL of the content ([None] is
    [img.onerror]), whether [canvas.getContext('2d')] is non-null, and the
    blob passed to the [canvas.toBlob] callback for the drawn image, type and
    quality ([None] is a [null] blob). *)
Variable Img : Type.
Variable load_image : list Byte.byte -> string -> option Img.
Variable has_context : bool.
Variable to_blob : Img -> string -> Z -> option Blob.

(** The image branch and the final [return] of [createProcessedDocument]. *)
Definition other_branch (compressionLevel : string) (fileExtension : string)
    (arrayBuffer : list Byte.byte) (fileType : string) : Blob :=
  let original := mkBlob arrayBuffer fileType in
  if existsb (String.eqb fileExtension) ["jpg"; "jpeg"; "png"]%string then
    match load_image arrayBuffer fileType with
    | None => original
    | Some img =>
        if has_context then
          let level := if String.eqb compressionLevel "" then "medium"%string
                       else compressionLevel in
          match to_blob img fileType (getQualityFromLevel level) with
          | Some blob => blob
          | None => original
          end
        else original
    end
  else original.

(** [createProcessedDocument] with its image and other-type branches. *)
Definition processDocument (PdfDoc : Type) (load : list Byte.byte -> option PdfDoc)
    (attempt : string -> nat -> PdfDoc -> option (list Byte.byte))
    (name : string) (arrayBuffer : list Byte.byte) (fileType : string)
    (compressionLevel : option string) : Blob :=
  createProcessedDocument PdfDoc load attempt
    (other_branch (match compressionLevel with Some l => l | None => EmptyString end))
    name arrayBuffer fileType compressionLevel.

End Other.

End ProcessOther.

(* ------------------------------------------------------------------ *)
(** ** The compress page ([CompressFiles]) *)

Module CompressPage.
Import Compress Files Split.

Inductive level := Light | Medium | High | Custom.

Definition level_name (l : level) : string :=
  match l with
  | Light => "light" | Medium => "medium" | High => "high" | Custom => "custom"
  end.

Definition supportedFormats : list string := ["pdf"%string].

(** The [validFiles] filter of [handleFileUpload]. *)
Definition valid_upload (file : File) : bool :=
  let extension := fileExtension (file_name file) in
  let isValidFormat :=
    negb (String.eqb extension "") && existsb (String.eqb extension) supportedFormats in
  let isValidSize := size file <=? maxFileSize in
  isValidFormat && isValidSize.

(** [setUploadedFiles(prev => [...prev, ...validFiles])] *)
Definition handleFileUpload (prev files : list File) : list File :=
  prev ++ filter valid_upload files.

(** [setUploadedFiles(prev => prev.filter((_, i) => i !== index))] *)
Definition removeFile (index : nat) (prev : list File) : list File :=
  map fst (filter (fun xi => negb (Nat.eqb (snd xi) index))
                  (combine prev (seq 0 (length prev)))).

(** The two updates of [uploadedFiles]. *)
Inductive upload_step : list File -> list File -> Prop :=
| step_upload (prev files : list File) : upload_step prev (handleFileUpload prev files)
| step_remove (prev : list File) (index : nat) : upload_step prev (removeFile index prev).

(** [file.name.replace(/\.[^/.]+$/, "")]: the last ['.'] and what follows it
    are removed when that rest is non-empty and has no ['/'] nor ['.']. *)
Definition strip_extension (name : string) : string :=
  match rev (JS.split "." name) with
  | e :: ((_ :: _) as before) =>
      if negb (String.eqb e "") && negb (JS.includes "/" e)
      then Slices.join "." (rev before) else name
  | _ => name
  end.

(** The [fileName] of [downloadCompressed]. *)
Definition downloadName (name : string) : string :=
  (strip_extension name ++ "_compressed." ++ last (JS.split "." name) EmptyString)%string.

(** A [CompressedFile] without its [id] (from [Date.now()]) and its ratio. *)
Record CompressedFile := mkCompressedFile {
  cf_name : string;
  originalSize : Z;
  compressedSize : Z;
  cf_blob : Blob;
  cf_type : string
}.

Inductive compress_outcome :=
| NoFilesSelected                       (* the "No files selected" toast *)
| CompressionFailed                     (* the [catch]: "Compression failed" *)
| CompressionDone (files : list CompressedFile).

Section Compressing.
(** [PDFDocument.load(arrayBuffer)], [pdfDoc.save({...compress: true})], and
    the pdf-lib operations used by [createProcessedDocument]. *)
Variable PdfDoc : Type.
Variable load : list Byte.byte -> option PdfDoc.
Variable save_compressed : PdfDoc -> option (list Byte.byte).
Variable load_opts : list Byte.byte -> option PdfDoc.
Variable attempt : string -> nat -> PdfDoc -> option (list Byte.byte).
Variable other : string -> list Byte.byte -> string -> Blob.

(** One iteration of the loop of [compressFiles]. *)
Definition compress_one (lvl : level) (file : File) : option CompressedFile :=
  if String.eqb (file_type file) "application/pdf" then
    match load (file_bytes file) with
    | None => None
    | Some pdfDoc =>
        match save_compressed pdfDoc with
        | None => None
        | Some compressedPdfBytes =>
            let compressedBlob := mkBlob compressedPdfBytes "application/pdf" in
            Some (mkCompressedFile (file_name file) (size file)
                    (Z.of_nat (length compressedPdfBytes)) compressedBlob (file_type file))
        end
    end
  else
    let compressedBlob :=
      createProcessedDocument PdfDoc load_opts attempt other (file_name file)
        (file_bytes file) (file_type file) (Some (level_name lvl)) in
    Some (mkCompressedFile (file_name file) (size file)
            (Z.of_nat (length (blob_bytes compressedBlob))) compressedBlob (file_type file)).

(** [compressFiles()]: an error in any iteration ends the whole loop in the
    [catch]. *)
Definition compressFiles (uploadedFiles : list File) (lvl : level) : compress_outcome :=
  match uploadedFiles with
  | [] => NoFilesSelected
  | _ =>
      match all_opt (map (compress_one lvl) uploadedFiles) with
      | Some compressed => CompressionDone compressed
      | None => CompressionFailed
      end
  end.

End Compressing.

End CompressPage.

(* ------------------------------------------------------------------ *)
(** ** [createMergedDocument] *)

Module Merge.
Import Compress Files Slices.

(** [mergedView.set(view, offset)]; [None] is the [RangeError] thrown when
    the view does not fit. *)
Definition set_at (buf view : list Byte.byte) (offset : nat) : option (list Byte.byte) :=
  if (offset + length view <=? length buf)%nat
  then Some (firstn offset buf ++ view ++ skipn (offset + length view) buf)
  else None.

(** The [for] loop copying each buffer at [offset]. *)
Fixpoint copy_all (buf : list Byte.byte) (offset : nat) (buffers : list (list Byte.byte))
    : option (list Byte.byte) :=
  match buffers with
  | [] => Some buf
  | b :: t =>
      match set_at buf b offset with
      | None => None
      | Some buf' => copy_all buf' (offset + length b) t
      end
  end.

(** [new ArrayBuffer(totalSize)], zero-filled, and the copy loop. *)
Definition concat_buffers (buffers : list (list Byte.byte)) : option (list Byte.byte) :=
  let totalSize := fold_left (fun sum b => (sum + length b)%nat) buffers 0%nat in
  copy_all (repeat Byte.x00 totalSize) 0 buffers.

Inductive merge_result :=
| MergeError (message : string)
| Merged (b : Blob).

Section Merging.
(** pdf-lib's merge of the loaded documents ([create], [load], [copyPages],
    [addPage], [save]); [file.text()] ([None] is a read error); the UTF-8
    encoding of [new Blob([text])]. *)
Variable merge_pdf : list (list Byte.byte) -> option (list Byte.byte).
Variable read_text : list Byte.byte -> option string.
Variable encode : string -> list Byte.byte.

(** The text appended for the [i]-th file (0-based). *)
Definition text_section (i : nat) (file : File) : string :=
  let header := (newline ++ "=== Document " ++ Naming.to_string (Z.of_nat i + 1)
                 ++ ": " ++ file_name file)%string in
  match read_text (file_bytes file) with
  | Some text =>
      (header ++ " ===" ++ newline ++ newline ++ text ++ newline ++ newline)%string
  | None =>
      (header ++ " (Error reading content) ===" ++ newline ++ newline)%string
  end.

Fixpoint merged_text (i : nat) (files : list File) : string :=
  match files with
  | [] => EmptyString
  | f :: t => (text_section i f ++ merged_text (S i) t)%string
  end.

(** [createMergedDocument(files, outputFilename)].  The message of a pdf-lib
    error, appended to the thrown message, is not modelled. *)
Definition createMergedDocument (files : list File) : merge_result :=
  match files with
  | [] => MergeError "No files to merge"
  | firstFile :: _ =>
      let ext := fileExtension (file_name firstFile) in
      if String.eqb ext "pdf" then
        match merge_pdf (map file_bytes files) with
        | Some mergedPdfBytes => Merged (mkBlob mergedPdfBytes "application/pdf")
        | None => MergeError "Failed to merge PDF files: "
        end
      else if prefix "text/" (file_type firstFile) || String.eqb ext "txt"
              || String.eqb ext "csv" then
        let ty := match file_type firstFile with
                  | EmptyString => "text/plain"%string
                  | t => t
                  end in
        Merged (mkBlob (encode (merged_text 0 files)) ty)
      else if existsb (String.eqb ext) ["docx"; "pptx"; "doc"; "ppt"]%string then
        match concat_buffers (map file_bytes files) with
        | Some mergedBuffer => Merged (mkBlob mergedBuffer (file_type firstFile))
        | None => MergeError "RangeError"
        end
      else
        match concat_buffers (map file_bytes files) with
        | Some mergedBuffer => Merged (mkBlob mergedBuffer (file_type firstFile))
        | None => MergeError "RangeError"
        end
  end.

End Merging.

End Merge.

(* ------------------------------------------------------------------ *)
(** ** Character classes, used to describe printed numbers *)

Module Chars.

Fixpoint all_chars (P : ascii -> bool) (s : string) : bool :=
  match s with
  | EmptyString => true
  | String c r => P c && all_chars P r
  end.

(** A decimal digit, as read by [parseInt]. *)
Definition is_digit (c : ascii) : bool :=
  match JS.digit_val 10 c with Some _ => true | None => false end.

End Chars.

(* ================================================================== *)
(** * Properties *)

(** ** Sorting and [Set] deduplication *)

Module ParseFacts.
Import JS Parse.

Lemma insert_perm (x : Z) (l : list Z) : Permutation (insert x l) (x :: l).
Proof.
  induction l as [|y t IH]; simpl; [reflexivity|].
  destruct (x <=? y); [reflexivity|].
  rewrite IH. apply perm_swap.
Qed.

Lemma sort_perm (l : list Z) : Permutation (sort l) l.
Proof.
  induction l as [|x t IH]; simpl; [reflexivity|].
  rewrite insert_perm. now apply perm_skip.
Qed.

Lemma insert_sorted (x : Z) (l : list Z) :
  Sorted Z.le l -> Sorted Z.le (insert x l).
Proof.
  induction 1 as [|y t Ht IH Hy]; simpl; [repeat constructor|].
  case_eq (x <=? y); intro Hxy.
  - apply Z.leb_le in Hxy. repeat constructor; auto.
  - apply Z.leb_gt in Hxy. constructor; [exact IH|].
    destruct t as [|z t']; simpl; [constructor; lia|].
    inversion Hy; subst.
    destruct (x <=? z); constructor; lia.
Qed.

Lemma sort_sorted (l : list Z) : Sorted Z.le (sort l).
Proof. induction l; simpl; auto using insert_sorted. Qed.

(** On an already ascending list the sort changes nothing. *)
Lemma insert_head (x : Z) (l : list Z) :
  HdRel Z.le x l -> insert x l = x :: l.
Proof.
  destruct l as [|y t]; simpl; [reflexivity|].
  intro H. inversion H; subst.
  destruct (Z.leb_spec x y); [reflexivity|lia].
Qed.

Lemma sort_id (l : list Z) : Sorted Z.le l -> sort l = l.
Proof.
  induction 1 as [|x t Ht IH Hx]; simpl; [reflexivity|].
  rewrite IH. now apply insert_head.
Qed.

Lemma sorted_nodup_lt (l : list Z) :
  Sorted Z.le l -> NoDup l -> Sorted Z.lt l.
Proof.
  induction 1 as [|x t Ht IH Hx]; intro Hnd; [constructor|].
  inversion Hnd as [|? ? Hnin Hnd']; subst.
  constructor; [auto|].
  destruct t as [|y t']; constructor.
  inversion Hx; subst.
  assert (x <> y) by (intro; subst; apply Hnin; left; reflexivity).
  lia.
Qed.

Lemma sorted_lt_le (l : list Z) : Sorted Z.lt l -> Sorted Z.le l.
Proof.
  intro H. apply Sorted_LocallySorted_iff in H.
  apply Sorted_LocallySorted_iff.
  induction H; constructor; auto; lia.
Qed.

Lemma sorted_lt_nodup (l : list Z) : Sorted Z.lt l -> NoDup l.
Proof.
  intro H. apply Sorted_StronglySorted in H; [|intros ? ? ?; lia].
  induction H as [|x t Ht IH Hx]; constructor; auto.
  intro Hin. rewrite Forall_forall in Hx. specialize (Hx x Hin). lia.
Qed.

Lemma dedup_fold_in (l acc : list Z) (x : Z) :
  In x (fold_left dedup_step l acc) <-> In x acc \/ In x l.
Proof.
  revert acc. induction l as [|y t IH]; intro acc; simpl; [tauto|].
  rewrite IH. unfold dedup_step.
  case_eq (existsb (Z.eqb y) acc); intro He.
  - apply existsb_exists in He as [z [Hz Hyz]]. apply Z.eqb_eq in Hyz. subst.
    split; [tauto|]. intros [H|[H|H]]; subst; tauto.
  - rewrite in_app_iff. simpl. split; intros; tauto.
Qed.

Lemma dedup_fold_nodup (l acc : list Z) :
  NoDup acc -> NoDup (fold_left dedup_step l acc).
Proof.
  revert acc. induction l as [|y t IH]; intros acc Hacc; simpl; [exact Hacc|].
  apply IH. unfold dedup_step.
  case_eq (existsb (Z.eqb y) acc); intro He; [exact Hacc|].
  apply NoDup_app; [exact Hacc|repeat constructor; simpl; tauto|].
  intros z Hz [Hzy|[]]. subst.
  assert (existsb (Z.eqb z) acc = true) as Ht.
  { apply existsb_exists. exists z. split; [exact Hz|apply Z.eqb_refl]. }
  congruence.
Qed.

Lemma dedup_in (l : list Z) (x : Z) : In x (dedup l) <-> In x l.
Proof. unfold dedup. rewrite dedup_fold_in. simpl. tauto. Qed.

Lemma dedup_nodup (l : list Z) : NoDup (dedup l).
Proof. unfold dedup. apply dedup_fold_nodup. constructor. Qed.

(** ** Page bounds *)

Lemma in_zrange (a b p : Z) : In p (zrange a b) <-> a <= p <= b.
Proof.
  unfold zrange. rewrite in_map_iff. split.
  - intros [k [Hk Hin]]. apply in_seq in Hin.
    destruct (Z.le_gt_cases a b).
    + rewrite Z2Nat.inj_add in Hin by lia. simpl in Hin. lia.
    + assert (Z.to_nat (b - a + 1) = 0%nat) by lia. lia.
  - intros Hp. exists (Z.to_nat (p - a)). split; [lia|].
    apply in_seq. lia.
Qed.

Lemma token_pages_bounds (n : Z) (t : string) (p : Z) :
  In p (token_pages n t) -> 1 <= p <= n.
Proof.
  unfold token_pages. destruct (includes "-" t).
  - destruct (map _ _) as [|[a|] [|[b|] rest]]; try (simpl; tauto).
    case_eq ((0 <? a) && (b <=? n) && (a <=? b)); intro H; [|simpl; tauto].
    apply andb_true_iff in H as [H H3]. apply andb_true_iff in H as [H1 H2].
    apply Z.ltb_lt in H1. apply Z.leb_le in H2. apply Z.leb_le in H3.
    rewrite in_zrange. lia.
  - destruct (parseInt t) as [q|]; [|simpl; tauto].
    case_eq ((0 <? q) && (q <=? n)); intro H; [|simpl; tauto].
    apply andb_true_iff in H as [H1 H2].
    apply Z.ltb_lt in H1. apply Z.leb_le in H2.
    intros [<-|[]]. lia.
Qed.

Lemma pages_of_bounds (s : string) (n p : Z) :
  In p (pages_of s n) -> 1 <= p <= n.
Proof.
  unfold pages_of. rewrite in_concat. intros [l [Hl Hp]].
  rewrite map_map, in_map_iff in Hl. destruct Hl as [t [<- _]].
  exact (token_pages_bounds _ _ _ Hp).
Qed.

Lemma parse_in (s : string) (n p : Z) :
  In p (parsePageRanges s n) <-> In p (pages_of s n).
Proof.
  unfold parsePageRanges. split; intro H.
  - apply (Permutation_in _ (sort_perm _)) in H. now apply dedup_in.
  - apply (Permutation_in _ (Permutation_sym (sort_perm _))). now apply dedup_in.
Qed.

(** ** [split], [includes] and [trim] *)

Lemma split_nonempty (c : ascii) (s : string) : split c s <> [].
Proof.
  destruct s as [|d r]; simpl; [discriminate|].
  destruct (Ascii.eqb d c); [discriminate|].
  destruct (split c r); discriminate.
Qed.

Lemma split_fields (c : ascii) (s f : string) :
  In f (split c s) -> includes c f = false.
Proof.
  revert f. induction s as [|d r IH]; intro f; simpl.
  - intros [<-|[]]. reflexivity.
  - case_eq (Ascii.eqb d c); intro Hd.
    + intros [<-|Hf]; [reflexivity|auto].
    + destruct (split c r) as [|q qs] eqn:Hs.
      * intros [<-|[]]. simpl. rewrite Hd. reflexivity.
      * intros [<-|Hf].
        -- simpl. rewrite Hd. apply IH. left. reflexivity.
        -- apply IH. right. exact Hf.
Qed.

Lemma split_no_sep (c : ascii) (s : string) :
  includes c s = false -> split c s = [s].
Proof.
  induction s as [|d r IH]; simpl; [reflexivity|].
  intro H. apply orb_false_iff in H as [Hd Hr].
  rewrite Hd, (IH Hr). reflexivity.
Qed.

Lemma split_app_sep (c : ascii) (a b : string) :
  includes c a = false -> split c (a ++ String c b) = a :: split c b.
Proof.
  induction a as [|d r IH]; simpl; intro H.
  - rewrite Ascii.eqb_refl. reflexivity.
  - apply orb_false_iff in H as [Hd Hr].
    rewrite Hd, (IH Hr). reflexivity.
Qed.

Lemma includes_app_sep (c : ascii) (a b : string) :
  includes c (a ++ String c b) = true.
Proof.
  induction a as [|d r IH]; simpl.
  - rewrite Ascii.eqb_refl. reflexivity.
  - rewrite IH. apply orb_true_r.
Qed.

Lemma split_two_includes (c : ascii) (s f1 f2 : string) (rest : list string) :
  split c s = f1 :: f2 :: rest -> includes c s = true.
Proof.
  intro H. case_eq (includes c s); intro Hc; [reflexivity|].
  rewrite (split_no_sep _ _ Hc) in H. discriminate.
Qed.

(** A token with two or more hyphens reads as its first two fields. *)
Lemma token_pages_first_two (n : Z) (tok f1 f2 : string) (rest : list string) :
  split "-" tok = f1 :: f2 :: rest ->
  token_pages n tok = token_pages n (f1 ++ String "-" f2).
Proof.
  intro Hs.
  assert (Hf2 : includes "-" f2 = false)
    by (apply (split_fields "-" tok); rewrite Hs; right; left; reflexivity).
  assert (Hf1 : includes "-" f1 = false)
    by (apply (split_fields "-" tok); rewrite Hs; left; reflexivity).
  unfold token_pages.
  rewrite (split_two_includes _ _ _ _ _ Hs), includes_app_sep, Hs.
  rewrite (split_app_sep _ _ _ Hf1), (split_no_sep _ _ Hf2).
  reflexivity.
Qed.

Lemma token_pages_accepted (n : Z) (tok : string) (p : Z) :
  In p (token_pages n tok) <-> SpecReading.accepted n tok p.
Proof.
  unfold token_pages, SpecReading.accepted.
  case_eq (includes "-" tok); intro Hinc.
  - split.
    + intro Hp. left. split; [reflexivity|].
      destruct (split "-" tok) as [|f1 [|f2 rest]]; simpl in Hp;
        [contradiction|destruct (parseInt (trim f1)); contradiction|].
      destruct (parseInt (trim f1)) as [a|] eqn:Ha; [|contradiction].
      destruct (parseInt (trim f2)) as [b|] eqn:Hb; [|contradiction].
      destruct ((0 <? a) && (b <=? n) && (a <=? b)) eqn:Hc; [|contradiction].
      apply andb_true_iff in Hc as [Hc H3]. apply andb_true_iff in Hc as [H1 H2].
      apply Z.ltb_lt in H1. apply Z.leb_le in H2. apply Z.leb_le in H3.
      apply in_zrange in Hp.
      exists f1, f2, rest, a, b. repeat split; auto; lia.
    + intros [[_ [f1 [f2 [rest [a [b [Hs [Ha [Hb H]]]]]]]]]|[Hf _]]; [|discriminate].
      rewrite Hs. simpl. rewrite Ha, Hb.
      replace ((0 <? a) && (b <=? n) && (a <=? b)) with true.
      * apply in_zrange. lia.
      * symmetry. repeat rewrite andb_true_iff.
        rewrite Z.ltb_lt, !Z.leb_le. lia.
  - split.
    + intro Hp. right. split; [reflexivity|].
      destruct (parseInt tok) as [q|]; [|contradiction].
      destruct ((0 <? q) && (q <=? n)) eqn:Hc; [|contradiction].
      apply andb_true_iff in Hc as [H1 H2].
      apply Z.ltb_lt in H1. apply Z.leb_le in H2.
      destruct Hp as [<-|[]]. split; [reflexivity|lia].
    + intros [[Hf _]|[_ [Hq Hb]]]; [discriminate|].
      rewrite Hq.
      replace ((0 <? p) && (p <=? n)) with true; [left; reflexivity|].
      symmetry. rewrite andb_true_iff, Z.ltb_lt, Z.leb_le. lia.
Qed.

Lemma pages_of_in (s : string) (n p : Z) :
  In p (pages_of s n) <->
  exists tok, In tok (map trim (split "," s)) /\ In p (token_pages n tok).
Proof.
  unfold pages_of. rewrite in_concat. split.
  - intros [l [Hl Hp]]. apply in_map_iff in Hl as [tok [<- Htok]].
    exists tok. auto.
  - intros [tok [Htok Hp]]. exists (token_pages n tok).
    split; [apply in_map; exact Htok|exact Hp].
Qed.

Lemma trim_blank (t : string) : trim_start t = EmptyString -> trim t = EmptyString.
Proof. intro H. unfold trim. rewrite H. reflexivity. Qed.

Lemma split_commas_blank (s t : string) :
  SpecReading.only_ws_commas s = true -> In t (split "," s) ->
  trim_start t = EmptyString.
Proof.
  revert t. induction s as [|c r IH]; intro t; simpl.
  - intros _ [<-|[]]. reflexivity.
  - intro H. apply andb_true_iff in H as [Hc Hr].
    case_eq (Ascii.eqb c ","); intro Hcomma.
    + intros [<-|Ht]; [reflexivity|auto].
    + rewrite Hcomma, orb_false_r in Hc.
      destruct (split "," r) as [|q qs] eqn:Hs.
      * intros [<-|[]]. simpl. rewrite Hc. reflexivity.
      * intros [<-|Ht].
        -- simpl. rewrite Hc. apply IH; [exact Hr|left; reflexivity].
        -- apply IH; [exact Hr|right; exact Ht].
Qed.

End ParseFacts.

(** ** Claims on [parsePageRanges] *)

Module ParseClaims.
Import JS Parse ParseFacts SpecReading.

(** C1 (counterexample).  The token rule of the claim (a single integer
    literal, or two integer literals around one hyphen; every other token
    dropped) is not what the parser does: the token "1-3-5", outside that
    grammar, contributes the pages 1, 2, 3. *)
Lemma C1_parse_three_fields_counterexample :
  ~ (forall (rangeStr : string) (totalPages p : Z), 1 <= totalPages ->
       In p (parsePageRanges rangeStr totalPages) <->
       In p (spec_pages rangeStr totalPages)).
Proof.
  intro H. specialize (H "1-3-5"%string 10 1 ltac:(lia)).
  vm_compute in H. destruct H as [H _]. exact (H (or_introl eq_refl)).
Qed.

(** C1 (amended).  A page is in the result iff some trimmed comma-delimited
    token accepts it: a token with a hyphen through the [parseInt] readings
    of its first two hyphen-separated fields (start > 0, end <= totalPages,
    start <= end, start <= page <= end), a token without a hyphen through
    its [parseInt] reading, which must lie in [1, totalPages]. *)
Theorem C1_parse_accepts_iff (rangeStr : string) (totalPages p : Z) :
  In p (parsePageRanges rangeStr totalPages) <->
  exists tok, In tok (map trim (split "," rangeStr)) /\ accepted totalPages tok p.
Proof.
  rewrite parse_in, pages_of_in. split.
  - intros [tok [Ht Hp]]. exists tok. split; [exact Ht|].
    apply token_pages_accepted. exact Hp.
  - intros [tok [Ht Hp]]. exists tok. split; [exact Ht|].
    apply token_pages_accepted. exact Hp.
Qed.

(** C2.  The result of [parsePageRanges] is strictly ascending (hence
    duplicate-free) and every page in it lies in [1, totalPages]. *)
Theorem C2_parse_sorted_in_bounds (rangeStr : string) (totalPages : Z) :
  Sorted Z.lt (parsePageRanges rangeStr totalPages) /\
  Forall (fun p => 1 <= p <= totalPages) (parsePageRanges rangeStr totalPages).
Proof.
  split.
  - apply sorted_nodup_lt; [apply sort_sorted|].
    apply (Permutation_NoDup (Permutation_sym (sort_perm _))).
    apply dedup_nodup.
  - apply Forall_forall. intros p Hp.
    apply parse_in in Hp. exact (pages_of_bounds _ _ _ Hp).
Qed.

(** C4.  [parsePageRanges] is a total function with a list result (no error
    outcome); a string made only of whitespace and commas, the empty string
    included, gives the empty list. *)
Theorem C4_parse_blank_empty (rangeStr : string) (totalPages : Z) :
  only_ws_commas rangeStr = true -> parsePageRanges rangeStr totalPages = [].
Proof.
  intro H. unfold parsePageRanges, pages_of.
  rewrite map_map.
  assert (Hblank : forall t, In t (split "," rangeStr) ->
                   token_pages totalPages (trim t) = []).
  { intros t Ht. rewrite (trim_blank _ (split_commas_blank _ _ H Ht)).
    reflexivity. }
  induction (split "," rangeStr) as [|t ts IH]; [reflexivity|].
  simpl. rewrite (Hblank t (or_introl eq_refl)).
  apply IH. intros t' Ht'. apply Hblank. right. exact Ht'.
Qed.

(** C10.  A token with two or more hyphens is read through its first two
    hyphen-separated fields only; the other fields are ignored. *)
Theorem C10_parse_first_two_fields (totalPages : Z) (tok f1 f2 : string)
    (rest : list string) :
  split "-" tok = f1 :: f2 :: rest ->
  token_pages totalPages tok = token_pages totalPages (f1 ++ "-" ++ f2).
Proof. exact (token_pages_first_two totalPages tok f1 f2 rest). Qed.

End ParseClaims.

(** ** The grouping loop of [createSplitDocuments] *)

Module SplitFacts.
Import Parse ParseFacts Naming Split Runs.

Lemma zrange_nonempty (a b : Z) : zrange a b <> [] -> a <= b.
Proof.
  intro H. destruct (Z.le_gt_cases a b) as [|Hlt]; [assumption|].
  exfalso. apply H. unfold zrange.
  replace (Z.to_nat (b - a + 1)) with 0%nat by lia. reflexivity.
Qed.

Lemma zrange_single (p : Z) : zrange p p = [p].
Proof.
  unfold zrange. replace (Z.to_nat (p - p + 1)) with 1%nat by lia.
  simpl. f_equal. lia.
Qed.

Lemma zrange_snoc (a b : Z) :
  a <= b + 1 -> zrange a (b + 1) = zrange a b ++ [b + 1].
Proof.
  intro H. unfold zrange.
  replace (Z.to_nat (b + 1 - a + 1)) with (S (Z.to_nat (b - a + 1))) by lia.
  rewrite seq_S, map_app. simpl. f_equal. f_equal. lia.
Qed.

Lemma zrange_first (a b : Z) : a <= b -> first_page (zrange a b) = a.
Proof.
  intro H. unfold first_page, zrange.
  replace (Z.to_nat (b - a + 1)) with (S (Z.to_nat (b - a))) by lia.
  simpl. lia.
Qed.

Lemma zrange_last (a b : Z) : a <= b -> last_page (zrange a b) = b.
Proof.
  intro H. unfold last_page.
  replace b with ((b - 1) + 1) by lia.
  rewrite zrange_snoc by lia. apply last_last.
Qed.

Lemma zrange_length (a b : Z) : length (zrange a b) = Z.to_nat (b - a + 1).
Proof. unfold zrange. rewrite length_map, length_seq. reflexivity. Qed.

Lemma is_run_single (p : Z) : is_run [p].
Proof.
  split; [discriminate|]. unfold first_page, last_page. simpl.
  symmetry. apply zrange_single.
Qed.

Lemma is_run_le (r : list Z) : is_run r -> first_page r <= last_page r.
Proof. intros [Hne Hr]. apply zrange_nonempty. rewrite <- Hr. exact Hne. Qed.

Lemma first_page_app (r : list Z) (x : Z) :
  r <> [] -> first_page (r ++ [x]) = first_page r.
Proof. destruct r; [contradiction|reflexivity]. Qed.

Lemma is_run_snoc (r : list Z) : is_run r -> is_run (r ++ [last_page r + 1]).
Proof.
  intros [Hne Hr].
  assert (Hle : first_page r <= last_page r)
    by (apply zrange_nonempty; rewrite <- Hr; exact Hne).
  split; [destruct r; discriminate|].
  rewrite first_page_app by exact Hne.
  unfold last_page at 2. rewrite last_last.
  rewrite zrange_snoc by lia. rewrite <- Hr. reflexivity.
Qed.

Lemma is_run_span (r : list Z) : is_run r -> span (bounds r) = r.
Proof. intros [_ Hr]. unfold span, bounds. simpl. symmetry. exact Hr. Qed.

Lemma runs_concat (cur l : list Z) : concat (runs cur l) = cur ++ l.
Proof.
  revert cur. induction l as [|p t IH]; intro cur; simpl.
  - reflexivity.
  - destruct (p =? last cur 0 + 1).
    + rewrite IH, <- app_assoc. reflexivity.
    + simpl. rewrite IH. reflexivity.
Qed.

Lemma runs_is_run (cur l : list Z) : is_run cur -> Forall is_run (runs cur l).
Proof.
  revert cur. induction l as [|p t IH]; intros cur Hcur; simpl.
  - constructor; [exact Hcur|constructor].
  - case_eq (p =? last cur 0 + 1); intro Hp.
    + apply Z.eqb_eq in Hp. apply IH. rewrite Hp.
      exact (is_run_snoc cur Hcur).
    + constructor; [exact Hcur|]. apply IH. apply is_run_single.
Qed.

Lemma runs_length (cur l : list Z) :
  length (runs cur l) = S (breaks (last cur 0 :: l)).
Proof.
  revert cur. induction l as [|p t IH]; intro cur; [reflexivity|].
  simpl runs. change (breaks (last cur 0 :: p :: t))
    with ((if (p =? last cur 0 + 1)%Z then 0 else 1) + breaks (p :: t))%nat.
  destruct (p =? last cur 0 + 1).
  - rewrite IH, last_last. reflexivity.
  - simpl length. rewrite IH. reflexivity.
Qed.

Lemma runs_head (cur l : list Z) :
  cur <> [] ->
  exists r rs, runs cur l = r :: rs /\ first_page r = first_page cur.
Proof.
  revert cur. induction l as [|p t IH]; intros cur Hne; simpl.
  - exists cur, []. auto.
  - destruct (p =? last cur 0 + 1).
    + destruct (IH (cur ++ [p])) as [r [rs [Hr Hf]]]; [destruct cur; discriminate|].
      exists r, rs. split; [exact Hr|]. rewrite Hf. apply first_page_app. exact Hne.
    + exists cur, (runs [p] t). auto.
Qed.

Lemma runs_apart (cur l : list Z) :
  cur <> [] -> Sorted Z.lt (last cur 0 :: l) ->
  Sorted (fun r1 r2 => apart (bounds r1) (bounds r2)) (runs cur l).
Proof.
  revert cur. induction l as [|p t IH]; intros cur Hne Hs; simpl.
  - repeat constructor.
  - inversion Hs as [|? ? Hs' Hhd]; subst. inversion Hhd; subst.
    case_eq (p =? last cur 0 + 1); intro Hp.
    + apply IH; [destruct cur; discriminate|]. rewrite last_last. exact Hs'.
    + apply Z.eqb_neq in Hp.
      constructor; [apply IH; [discriminate|exact Hs']|].
      destruct (runs_head [p] t) as [r [rs [Hr Hf]]]; [discriminate|].
      rewrite Hr. constructor. unfold apart, bounds. simpl.
      rewrite Hf. unfold last_page, first_page. simpl. lia.
Qed.

(** The loop on pages all in [1, totalPages], after a first page. *)
Lemma group_runs (n : Z) (cur : list Z) (ranges : list (list Z)) (l : list Z) :
  Forall (fun p => 1 <= p <= n) l -> cur <> [] ->
  group_aux n (Some (last cur 0)) cur ranges l = ranges ++ runs cur l.
Proof.
  revert cur ranges. induction l as [|p t IH]; intros cur ranges Hl Hne.
  - simpl. destruct cur; [contradiction|reflexivity].
  - inversion Hl as [|? ? Hp Ht]; subst. simpl.
    replace ((p - 1 <? 0) || (n <=? p - 1)) with false
      by (symmetry; apply orb_false_iff; split; [apply Z.ltb_ge|apply Z.leb_gt]; lia).
    destruct (p =? last cur 0 + 1); simpl.
    + specialize (IH (cur ++ [p]) ranges Ht ltac:(destruct cur; discriminate)).
      rewrite last_last in IH. exact IH.
    + rewrite (IH [p]) by (auto || discriminate).
      destruct cur; [contradiction|]. rewrite <- app_assoc. reflexivity.
Qed.

Lemma group_start (n p : Z) (t : list Z) :
  Forall (fun q => 1 <= q <= n) (p :: t) ->
  group_aux n None [] [] (p :: t) = runs [p] t.
Proof.
  intro Hl. inversion Hl as [|? ? Hp Ht]; subst. simpl.
  replace ((p - 1 <? 0) || (n <=? p - 1)) with false
    by (symmetry; apply orb_false_iff; split; [apply Z.ltb_ge|apply Z.leb_gt]; lia).
  exact (group_runs n [p] [] t Ht ltac:(discriminate)).
Qed.

Lemma ranges_of_sorted (n : Z) (s : list Z) :
  Sorted Z.le s -> Forall (fun q => 1 <= q <= n) s ->
  ranges_of n s = match s with [] => [] | p :: t => runs [p] t end.
Proof.
  intros Hs Hb. unfold ranges_of. rewrite (sort_id _ Hs).
  destruct s as [|p t]; [reflexivity|]. exact (group_start n p t Hb).
Qed.

Lemma Sorted_map {A B : Type} (f : A -> B) (R : B -> B -> Prop) (l : list A) :
  Sorted (fun x y => R (f x) (f y)) l -> Sorted R (map f l).
Proof.
  induction 1 as [|x t Ht IH Hx]; simpl; constructor; [exact IH|].
  destruct Hx; simpl; constructor. assumption.
Qed.

Lemma flatten_runs (rs : list (list Z)) :
  Forall is_run rs -> flatten (map bounds rs) = concat rs.
Proof.
  unfold flatten. rewrite map_map. intro H.
  induction H as [|r rs Hr Hrs IH]; [reflexivity|].
  simpl. rewrite IH, (is_run_span r Hr). reflexivity.
Qed.

Lemma runs_bounds_le (rs : list (list Z)) :
  Forall is_run rs -> Forall (fun r => fst r <= snd r) (map bounds rs).
Proof.
  intro H. apply Forall_map. eapply Forall_impl; [|exact H].
  intros r Hr. exact (is_run_le r Hr).
Qed.

(** What the grouping produces on a strictly ascending selection of pages
    of the document. *)
Lemma compact_runs (n : Z) (s : list Z) :
  Sorted Z.lt s -> Forall (fun q => 1 <= q <= n) s ->
  Forall is_run (ranges_of n s) /\ concat (ranges_of n s) = s /\
  Sorted (fun r1 r2 => apart (bounds r1) (bounds r2)) (ranges_of n s) /\
  length (ranges_of n s) = match s with [] => 0%nat | _ => S (breaks s) end.
Proof.
  intros Hs Hb. rewrite (ranges_of_sorted n s (sorted_lt_le _ Hs) Hb).
  destruct s as [|p t]; [repeat constructor|].
  split; [apply runs_is_run, is_run_single|].
  split; [apply runs_concat|].
  split; [apply runs_apart; [discriminate|exact Hs]|].
  apply runs_length.
Qed.

(** ** Lower bound on the number of Ranges of any decomposition *)

Lemma breaks_cons2 (x y : Z) (t : list Z) :
  breaks (x :: y :: t) = ((if (y =? x + 1)%Z then 0 else 1) + breaks (y :: t))%nat.
Proof. reflexivity. Qed.

Lemma breaks_zrange_from (a : Z) (j m : nat) :
  breaks (map (fun k => a + Z.of_nat k) (seq j m)) = 0%nat.
Proof.
  revert j. induction m as [|m IH]; intro j; [reflexivity|].
  destruct m as [|m]; [reflexivity|].
  specialize (IH (S j)). cbn [seq map] in IH |- *.
  rewrite breaks_cons2, IH.
  replace (a + Z.of_nat (S j) =? a + Z.of_nat j + 1) with true
    by (symmetry; apply Z.eqb_eq; lia).
  reflexivity.
Qed.

Lemma breaks_zrange (a b : Z) : breaks (zrange a b) = 0%nat.
Proof. apply breaks_zrange_from. Qed.

Lemma breaks_app (a b : list Z) :
  a <> [] -> (breaks (a ++ b) <= breaks a + breaks b + 1)%nat.
Proof.
  intro Hne. induction a as [|x a IH]; [contradiction|].
  destruct a as [|y a].
  - destruct b as [|z b]; [simpl; lia|].
    simpl app. rewrite breaks_cons2. change (breaks [x]) with 0%nat.
    destruct (z =? x + 1); lia.
  - specialize (IH ltac:(discriminate)).
    rewrite <- !app_comm_cons in *. rewrite !breaks_cons2.
    destruct (y =? x + 1); lia.
Qed.

Lemma span_nonempty (r : Z * Z) : fst r <= snd r -> span r <> [].
Proof.
  intro H. unfold span, zrange.
  replace (Z.to_nat (snd r - fst r + 1)) with (S (Z.to_nat (snd r - fst r))) by lia.
  discriminate.
Qed.

Lemma decomposition_breaks (rs : list (Z * Z)) :
  Forall (fun r => fst r <= snd r) rs -> rs <> [] ->
  (S (breaks (flatten rs)) <= length rs)%nat.
Proof.
  induction 1 as [|r rs Hr Hrs IH]; intro Hne; [contradiction|].
  unfold flatten. simpl. fold (flatten rs).
  destruct rs as [|r' rs'].
  - simpl. rewrite app_nil_r. unfold span. rewrite breaks_zrange. lia.
  - specialize (IH ltac:(discriminate)).
    pose proof (breaks_app (span r) (flatten (r' :: rs')) (span_nonempty r Hr)) as Ha.
    unfold span at 2 in Ha. rewrite breaks_zrange in Ha.
    simpl length in IH |- *. lia.
Qed.

(** ** Pages shared between ranges *)

Lemma zrange_nodup (a b : Z) : NoDup (zrange a b).
Proof.
  unfold zrange. generalize (seq_NoDup (Z.to_nat (b - a + 1)) 0).
  induction 1 as [|k l Hk Hl IH]; simpl; constructor; [|exact IH].
  rewrite in_map_iff. intros [k' [Heq Hin]].
  assert (k' = k) by lia. subst. contradiction.
Qed.

Lemma is_run_count (r : list Z) (p : Z) :
  is_run r -> (count_occ Z.eq_dec r p <= 1)%nat.
Proof.
  intros [_ Hr]. rewrite Hr. revert p. apply NoDup_count_occ. apply zrange_nodup.
Qed.

Lemma twice_in_two (rs : list (list Z)) (p : Z) :
  Forall (fun r => count_occ Z.eq_dec r p <= 1)%nat rs ->
  (2 <= count_occ Z.eq_dec (concat rs) p)%nat ->
  exists i j, i <> j /\ In p (nth i rs []) /\ In p (nth j rs []).
Proof.
  induction 1 as [|r rs Hr Hrs IH]; simpl; [lia|].
  rewrite count_occ_app. intro Hc.
  destruct (count_occ Z.eq_dec r p) as [|m] eqn:Hm.
  - destruct (IH Hc) as [i [j [Hij [Hi Hj]]]].
    exists (S i), (S j). simpl. auto.
  - assert (Hin : In p (concat rs)) by (apply (count_occ_In Z.eq_dec); lia).
    apply in_concat in Hin as [l [Hl Hpl]].
    destruct (In_nth rs l [] Hl) as [k [_ Hk]].
    exists 0%nat, (S k). split; [discriminate|]. simpl. split.
    + apply (count_occ_In Z.eq_dec). lia.
    + rewrite Hk. exact Hpl.
Qed.

(** ** The split itself *)

Lemma ranges_of_sort (n : Z) (l : list Z) : ranges_of n (sort l) = ranges_of n l.
Proof. unfold ranges_of. rewrite (sort_id (sort l) (sort_sorted l)). reflexivity. Qed.

Lemma sort_bounds (n : Z) (l : list Z) :
  Forall (fun q => 1 <= q <= n) l -> Forall (fun q => 1 <= q <= n) (sort l).
Proof.
  rewrite !Forall_forall. intros H q Hq.
  apply H. exact (Permutation_in _ (sort_perm l) Hq).
Qed.

Lemma sort_strict (l : list Z) : NoDup l -> Sorted Z.lt (sort l).
Proof.
  intro H. apply sorted_nodup_lt; [apply sort_sorted|].
  exact (Permutation_NoDup (Permutation_sym (sort_perm l)) H).
Qed.

Lemma all_opt_map {A B : Type} (f : A -> option B) (l : list A) (ys : list B) :
  all_opt (map f l) = Some ys -> Forall2 (fun x y => f x = Some y) l ys.
Proof.
  revert ys. induction l as [|x t IH]; intros ys H; simpl in H.
  - injection H as <-. constructor.
  - destruct (f x) as [y|] eqn:Hfx; [|discriminate].
    destruct (all_opt (map f t)) as [ys'|]; [|discriminate].
    injection H as <-. constructor; [exact Hfx|exact (IH ys' eq_refl)].
Qed.

(** ** Out-of-range pages *)

Lemma group_empty_prev (n : Z) (prev : option Z) (ranges : list (list Z)) (l : list Z) :
  group_aux n prev [] ranges l = group_aux n None [] ranges l.
Proof.
  destruct l as [|p t]; simpl; [reflexivity|].
  destruct ((p - 1 <? 0) || (n <=? p - 1)); [reflexivity|].
  destruct prev as [q|]; [|reflexivity].
  destruct (p =? q + 1); reflexivity.
Qed.

Lemma group_high (n : Z) (prev : option Z) (cur : list Z)
    (ranges : list (list Z)) (l : list Z) :
  Forall (fun p => n < p) l ->
  group_aux n prev cur ranges l = group_aux n prev cur ranges [].
Proof.
  intro H. revert prev. induction H as [|p t Hp Ht IH]; intro prev; [reflexivity|].
  simpl. replace ((p - 1 <? 0) || (n <=? p - 1)) with true
    by (symmetry; apply orb_true_iff; right; apply Z.leb_le; lia).
  rewrite IH. reflexivity.
Qed.

Lemma filter_high (n : Z) (l : list Z) :
  Forall (fun p => n < p) l -> filter (fun p => (1 <=? p) && (p <=? n)) l = [].
Proof.
  induction 1 as [|p t Hp Ht IH]; simpl; [reflexivity|].
  replace ((1 <=? p) && (p <=? n)) with false; [exact IH|].
  symmetry. apply andb_false_iff. right. apply Z.leb_gt. lia.
Qed.

Lemma sorted_tail_gt (p : Z) (t : list Z) (m : Z) :
  Sorted Z.lt (p :: t) -> m <= p -> Forall (fun q => m < q) t.
Proof.
  intros Hs Hm. apply Sorted_StronglySorted in Hs; [|intros ? ? ?; lia].
  inversion Hs as [|? ? _ Hall]; subst.
  eapply Forall_impl; [|exact Hall]. intros q Hq. simpl in Hq. lia.
Qed.

Lemma group_filter_from_one (n : Z) (prev : option Z) (cur : list Z)
    (ranges : list (list Z)) (l : list Z) :
  Sorted Z.lt l -> Forall (fun p => 1 <= p) l ->
  group_aux n prev cur ranges l =
  group_aux n prev cur ranges (filter (fun p => (1 <=? p) && (p <=? n)) l).
Proof.
  intros Hs Hge. revert prev cur ranges.
  induction l as [|p t IH]; intros prev cur ranges; [reflexivity|].
  inversion Hge as [|? ? Hp Ht]; subst.
  destruct (Z.le_gt_cases p n) as [Hpn|Hpn].
  - simpl. replace ((1 <=? p) && (p <=? n)) with true
      by (symmetry; apply andb_true_iff; split; apply Z.leb_le; lia).
    simpl. replace ((p - 1 <? 0) || (n <=? p - 1)) with false
      by (symmetry; apply orb_false_iff; split; [apply Z.ltb_ge|apply Z.leb_gt]; lia).
    assert (Hst : Sorted Z.lt t) by (inversion Hs; assumption).
    destruct prev as [q|]; [destruct (negb (p =? q + 1))|]; rewrite IH by assumption;
      reflexivity.
  - assert (Hhigh : Forall (fun q => n < q) (p :: t))
      by (constructor; [lia|apply (sorted_tail_gt p t n Hs); lia]).
    rewrite (filter_high n _ Hhigh), (group_high n prev cur ranges _ Hhigh).
    reflexivity.
Qed.

Lemma group_filter (n : Z) (s : list Z) :
  Sorted Z.lt s ->
  group_aux n None [] [] s =
  group_aux n None [] [] (filter (fun p => (1 <=? p) && (p <=? n)) s).
Proof.
  induction s as [|p t IH]; intro Hs; [reflexivity|].
  destruct (Z.lt_ge_cases p 1) as [Hp|Hp].
  - simpl. replace ((p - 1 <? 0) || (n <=? p - 1)) with true
      by (symmetry; apply orb_true_iff; left; apply Z.ltb_lt; lia).
    replace ((1 <=? p) && (p <=? n)) with false
      by (symmetry; apply andb_false_iff; left; apply Z.leb_gt; lia).
    rewrite group_empty_prev. apply IH. inversion Hs; assumption.
  - apply group_filter_from_one; [exact Hs|].
    constructor; [exact Hp|].
    eapply Forall_impl; [|apply (sorted_tail_gt p t 1 Hs Hp)].
    intros q Hq. simpl in Hq. lia.
Qed.

Lemma sorted_filter (f : Z -> bool) (l : list Z) :
  Sorted Z.lt l -> Sorted Z.lt (filter f l).
Proof.
  intro Hs. apply Sorted_StronglySorted in Hs; [|intros ? ? ?; lia].
  apply StronglySorted_Sorted.
  induction Hs as [|a l Hl IH Hall]; simpl; [constructor|].
  destruct (f a); [|exact IH].
  constructor; [exact IH|].
  apply Forall_forall. intros x Hx. apply filter_In in Hx as [Hx _].
  rewrite Forall_forall in Hall. exact (Hall x Hx).
Qed.

(** The grouping only sees the pages of the document. *)
Lemma compact_filter (n : Z) (s : list Z) :
  Sorted Z.lt s ->
  compact n s = compact n (filter (fun p => (1 <=? p) && (p <=? n)) s).
Proof.
  intro Hs. unfold compact, ranges_of.
  rewrite (sort_id _ (sorted_lt_le _ Hs)).
  rewrite (sort_id _ (sorted_lt_le _ (sorted_filter _ _ Hs))).
  rewrite group_filter by exact Hs. reflexivity.
Qed.

Lemma filter_bounds (n : Z) (s : list Z) :
  Forall (fun p => 1 <= p <= n) (filter (fun p => (1 <=? p) && (p <=? n)) s).
Proof.
  apply Forall_forall. intros p Hp. apply filter_In in Hp as [_ Hp].
  apply andb_true_iff in Hp as [H1 H2]. apply Z.leb_le in H1. apply Z.leb_le in H2.
  lia.
Qed.

End SplitFacts.

(** ** Claims on the grouping and the split *)

Module SplitClaims.
Import Parse ParseFacts Naming Split Runs SplitFacts.

(** C3.  On a strictly ascending selection of pages of the document, the
    compacted Ranges satisfy [start <= end], their spans concatenated in
    order give back the selection, adjacent Ranges are separated by a
    non-consecutive jump, and no sequence of Ranges whose spans concatenate
    to the selection has fewer Ranges.  [compact] of the empty selection is
    empty. *)
Theorem C3_compact_maximal_runs (totalPages : Z) (s : list Z) :
  Sorted Z.lt s -> Forall (fun p => 1 <= p <= totalPages) s ->
  Forall (fun r => fst r <= snd r) (compact totalPages s) /\
  flatten (compact totalPages s) = s /\
  Sorted apart (compact totalPages s) /\
  (forall rs, Forall (fun r => fst r <= snd r) rs -> flatten rs = s ->
     (length (compact totalPages s) <= length rs)%nat) /\
  compact totalPages [] = [].
Proof.
  intros Hs Hb. destruct (compact_runs _ _ Hs Hb) as [Hrun [Hcat [Hap Hlen]]].
  unfold compact. split; [apply runs_bounds_le; exact Hrun|].
  split; [rewrite flatten_runs by exact Hrun; exact Hcat|].
  split; [apply Sorted_map; exact Hap|].
  split; [|reflexivity].
  intros rs Hrs Hflat. rewrite length_map, Hlen.
  destruct s as [|p t]; [lia|].
  rewrite <- Hflat. apply decomposition_breaks; [exact Hrs|].
  intro Hnil. subst rs. discriminate.
Qed.

(** C5.  When the split of a PDF succeeds on a duplicate-free selection of
    pages of the document, the i-th output document is made of exactly the
    pages of the i-th Range of the compacted selection (one document per
    Range, named after that Range), and these Ranges are ascending. *)
Theorem C5_split_one_document_per_range (PdfDoc Blob : Type)
    (getPageCount : PdfDoc -> Z) (save_pages : PdfDoc -> list Z -> option Blob)
    (pdfDoc : PdfDoc) (pageNumbers : list Z) (namingPattern : string)
    (docs : list (output Blob)) :
  NoDup pageNumbers ->
  Forall (fun p => 1 <= p <= getPageCount pdfDoc) pageNumbers ->
  createSplitDocuments_pdf PdfDoc Blob getPageCount save_pages (Some pdfDoc)
    pageNumbers namingPattern = Some docs ->
  Forall2 (fun doc r =>
             name doc = fullFileName namingPattern (span r) /\
             save_pages pdfDoc (map (fun p => p - 1) (span r)) = Some (content doc))
    docs (compact (getPageCount pdfDoc) pageNumbers) /\
  Sorted apart (compact (getPageCount pdfDoc) pageNumbers).
Proof.
  intros Hnd Hb Hsplit. simpl in Hsplit.
  set (n := getPageCount pdfDoc) in *.
  destruct (compact_runs n (sort pageNumbers) (sort_strict _ Hnd) (sort_bounds _ _ Hb))
    as [Hrun [_ [Hap _]]].
  rewrite ranges_of_sort in Hrun, Hap.
  unfold compact. split; [|apply Sorted_map; exact Hap].
  clear Hap. apply all_opt_map in Hsplit.
  induction Hsplit as [|r doc rs ds Hr Hrs IH]; simpl; constructor.
  - inversion Hrun as [|? ? Hrun_r _]; subst.
    rewrite (is_run_span r Hrun_r).
    unfold split_one in Hr.
    destruct (save_pages pdfDoc (map (fun p => p - 1) r)); [|discriminate].
    injection Hr as <-. split; reflexivity.
  - apply IH. inversion Hrun; assumption.
Qed.

(** C6.  Compaction is idempotent: on every strictly ascending selection,
    compacting the flattened Ranges gives the same Ranges.  (Pages outside
    the document are skipped by the grouping, so no bound is needed.) *)
Theorem C6_compact_idempotent (totalPages : Z) (s : list Z) :
  Sorted Z.lt s ->
  compact totalPages (flatten (compact totalPages s)) = compact totalPages s.
Proof.
  intro Hs.
  set (f := filter (fun p => (1 <=? p) && (p <=? totalPages)) s).
  rewrite (compact_filter totalPages s Hs). fold f.
  destruct (compact_runs totalPages f (sorted_filter _ _ Hs) (filter_bounds _ _))
    as [Hrun [Hcat _]].
  unfold compact at 2. rewrite flatten_runs by exact Hrun.
  rewrite Hcat. reflexivity.
Qed.

(** C9.  The grouping sorts but does not deduplicate: when a page of the
    document occurs twice in the selection, two different ranges contain it,
    so "every page belongs to exactly one Range" needs a duplicate-free
    selection. *)
Theorem C9_duplicate_in_two_ranges (totalPages : Z) (pageNumbers : list Z) (p : Z) :
  Forall (fun q => 1 <= q <= totalPages) pageNumbers ->
  (2 <= count_occ Z.eq_dec pageNumbers p)%nat ->
  exists i j, i <> j /\
    In p (nth i (ranges_of totalPages pageNumbers) []) /\
    In p (nth j (ranges_of totalPages pageNumbers) []).
Proof.
  intros Hb Hc.
  rewrite <- ranges_of_sort.
  pose proof (sort_bounds _ _ Hb) as Hb'.
  rewrite (ranges_of_sorted _ _ (sort_sorted pageNumbers) Hb').
  assert (Hc' : (2 <= count_occ Z.eq_dec (sort pageNumbers) p)%nat)
    by (rewrite (proj1 (Permutation_count_occ Z.eq_dec _ _) (sort_perm pageNumbers)); exact Hc).
  destruct (sort pageNumbers) as [|q t]; [simpl in Hc'; lia|].
  apply twice_in_two.
  - eapply Forall_impl; [|apply (runs_is_run [q] t), is_run_single].
    intros r Hr. apply is_run_count. exact Hr.
  - rewrite runs_concat. exact Hc'.
Qed.

End SplitClaims.

(** ** Output naming *)

Module NamingFacts.
Import Parse Naming SpecReading SplitFacts.

Lemma substring_full (s : string) : substring 0 (String.length s) s = s.
Proof. induction s as [|c s IH]; simpl; [reflexivity|]. rewrite IH. reflexivity. Qed.

Lemma prefix_cons (a b : ascii) (s1 s2 : string) :
  prefix (String a s1) (String b s2) = if ascii_dec a b then prefix s1 s2 else false.
Proof. reflexivity. Qed.

Lemma prefix_placeholder_shift (c : ascii) (r suf : string) :
  prefix placeholder (String c r) = false ->
  prefix placeholder (String c (r ++ placeholder ++ suf)) = false.
Proof.
  unfold placeholder.
  destruct r as [|d [|e r']]; cbn [append]; intro H;
    rewrite ?prefix_cons in *;
    repeat match goal with
           | |- context [ascii_dec ?x ?y] => destruct (ascii_dec x y)
           | H : context [ascii_dec ?x ?y] |- _ => destruct (ascii_dec x y)
           end; subst; try reflexivity; try discriminate; try congruence.
  destruct r'; discriminate H.
Qed.

Lemma replace_first_cons (pat rep : string) (c : ascii) (r : string) :
  replace_first pat rep (String c r) =
  if prefix pat (String c r)
  then (rep ++ substring (String.length pat)
                (String.length (String c r) - String.length pat) (String c r))%string
  else String c (replace_first pat rep r).
Proof. reflexivity. Qed.

(** [replace] substitutes the first occurrence of the placeholder. *)
Lemma replace_first_placeholder (pre suf rep : string) :
  contains placeholder pre = false ->
  replace_first placeholder rep (pre ++ placeholder ++ suf) = (pre ++ rep ++ suf)%string.
Proof.
  induction pre as [|c r IH]; intro H.
  - simpl. replace (prefix "" suf) with true by (destruct suf; reflexivity).
    rewrite Nat.sub_0_r, substring_full. reflexivity.
  - cbn [contains] in H. apply orb_false_iff in H as [Hp Hr].
    cbn [append]. rewrite replace_first_cons.
    rewrite (prefix_placeholder_shift c r suf Hp), (IH Hr). reflexivity.
Qed.

Lemma zrange_length_one (a b : Z) :
  a <= b -> (length (zrange a b) =? 1)%nat = (a =? b).
Proof.
  intro H. rewrite zrange_length.
  destruct (Z.eqb_spec a b) as [->|Hne].
  - replace (Z.to_nat (b - b + 1)) with 1%nat by lia. reflexivity.
  - apply Nat.eqb_neq. lia.
Qed.

End NamingFacts.

Module NamingClaims.
Import Parse Naming SpecReading SplitFacts NamingFacts.

(** C7 (counterexample).  The name does not substitute every occurrence of
    the placeholder: with the pattern "a{n}_part{n}" (a file named
    "a{n}.pdf" split by the UI) the Range (7, 9) gives "a7-9_part{n}". *)
Lemma C7_name_every_placeholder_counterexample :
  ~ (forall (start end_ : Z) (pat : string),
       start <= end_ -> contains placeholder pat = true ->
       fileName pat (zrange start end_) =
       replace_all placeholder (range_label start end_) pat).
Proof.
  intro H. specialize (H 7 9 "a{n}_part{n}"%string ltac:(lia) eq_refl).
  vm_compute in H. discriminate H.
Qed.

(** C7 (amended).  For a Range (start, end) with start <= end, whose pages
    are [start, ..., end], the name is the pattern with its first occurrence
    of the placeholder replaced by the page number when start = end and by
    "start-end" otherwise; later occurrences are left as they are. *)
Theorem C7_name_first_placeholder (start end_ : Z) (pre suf : string) :
  start <= end_ -> contains placeholder pre = false ->
  fileName (pre ++ placeholder ++ suf) (zrange start end_) =
  (pre ++ range_label start end_ ++ suf)%string.
Proof.
  intros Hle Hpre. unfold fileName, range_label.
  rewrite zrange_length_one by exact Hle.
  rewrite zrange_first, zrange_last by exact Hle.
  destruct (start =? end_); apply replace_first_placeholder; exact Hpre.
Qed.

End NamingClaims.

(** ** The compression fallback *)

Module CompressClaims.
Import Compress SpecReading.

Lemma retry_no_gain (PdfDoc : Type) attempt arrayBuffer level k (pdfDoc : PdfDoc) r :
  no_gain arrayBuffer r -> no_gain arrayBuffer (attempt level k pdfDoc) ->
  no_gain arrayBuffer (retry PdfDoc attempt arrayBuffer level k pdfDoc r).
Proof.
  intros [->|[b [-> Hb]]] Ha; [left; reflexivity|].
  unfold retry. apply Nat.leb_le in Hb. rewrite Hb. exact Ha.
Qed.

(** C8.  For a PDF file, when every compression attempt throws or gives a
    byte sequence at least as large as the original, [createProcessedDocument]
    returns a blob of exactly the original bytes (with the original type). *)
Theorem C8_compress_fallback_original (PdfDoc : Type)
    (load : list Byte.byte -> option PdfDoc)
    (attempt : string -> nat -> PdfDoc -> option (list Byte.byte))
    (other : string -> list Byte.byte -> string -> Blob)
    (name : string) (arrayBuffer : list Byte.byte) (fileType : string)
    (compressionLevel : option string) :
  fileExtension name = "pdf"%string ->
  (forall level pdfDoc k, compressionLevel = Some level ->
     load arrayBuffer = Some pdfDoc -> (1 <= k <= 4)%nat ->
     no_gain arrayBuffer (attempt level k pdfDoc)) ->
  createProcessedDocument PdfDoc load attempt other name arrayBuffer fileType
    compressionLevel = mkBlob arrayBuffer fileType.
Proof.
  intros Hext Hatt. unfold createProcessedDocument.
  destruct compressionLevel as [level|]; [|reflexivity].
  destruct (String.eqb level EmptyString); [reflexivity|].
  rewrite Hext. simpl. unfold compress_pdf.
  destruct (load arrayBuffer) as [pdfDoc|] eqn:Hload; [|reflexivity].
  assert (Hk : forall k, (1 <= k <= 4)%nat -> no_gain arrayBuffer (attempt level k pdfDoc))
    by (intros k Hk; exact (Hatt level pdfDoc k eq_refl eq_refl Hk)).
  assert (Hfinal : no_gain arrayBuffer
    (retry PdfDoc attempt arrayBuffer level 4%nat pdfDoc
      (retry PdfDoc attempt arrayBuffer level 3%nat pdfDoc
        (retry PdfDoc attempt arrayBuffer level 2%nat pdfDoc
          (attempt level 1%nat pdfDoc))))).
  { repeat apply retry_no_gain; apply Hk; lia. }
  destruct Hfinal as [->|[b [-> Hb]]]; [reflexivity|].
  apply Nat.leb_le in Hb. rewrite Hb. reflexivity.
Qed.

End CompressClaims.

(** ** Instances of the theorems with hypotheses *)

Module Witnesses.
Import JS Parse Naming Split Runs SpecReading Compress.

Lemma C3_witness :
  Sorted Z.lt [1; 2; 3; 5; 7; 8; 9] /\
  Forall (fun p => 1 <= p <= 10) [1; 2; 3; 5; 7; 8; 9] /\
  compact 10 [1; 2; 3; 5; 7; 8; 9] = [(1, 3); (5, 5); (7, 9)] /\
  flatten (compact 10 [1; 2; 3; 5; 7; 8; 9]) = [1; 2; 3; 5; 7; 8; 9].
Proof.
  assert (Hs : Sorted Z.lt [1; 2; 3; 5; 7; 8; 9]) by (repeat constructor; lia).
  assert (Hb : Forall (fun p => 1 <= p <= 10) [1; 2; 3; 5; 7; 8; 9])
    by (repeat constructor; lia).
  split; [exact Hs|]. split; [exact Hb|]. split; [vm_compute; reflexivity|].
  exact (proj1 (proj2 (SplitClaims.C3_compact_maximal_runs 10 _ Hs Hb))).
Defined.

Lemma C4_witness :
  only_ws_commas " , ,"%string = true /\ parsePageRanges " , ,"%string 10 = [].
Proof.
  split; [reflexivity|].
  apply ParseClaims.C4_parse_blank_empty. reflexivity.
Defined.

Lemma C5_witness :
  NoDup [9; 1; 2; 3; 5; 7; 8] /\
  Forall (fun p => 1 <= p <= 10) [9; 1; 2; 3; 5; 7; 8] /\
  createSplitDocuments_pdf unit (list Z) (fun _ => 10) (fun _ l => Some l) (Some tt)
    [9; 1; 2; 3; 5; 7; 8] "doc_part{n}"%string =
    Some [mkOutput "doc_part1-3.pdf"%string [0; 1; 2];
          mkOutput "doc_part5.pdf"%string [4];
          mkOutput "doc_part7-9.pdf"%string [6; 7; 8]] /\
  Sorted apart (compact 10 [9; 1; 2; 3; 5; 7; 8]).
Proof.
  assert (Hnd : NoDup [9; 1; 2; 3; 5; 7; 8])
    by (repeat constructor; simpl; lia).
  assert (Hb : Forall (fun p => 1 <= p <= 10) [9; 1; 2; 3; 5; 7; 8])
    by (repeat constructor; lia).
  assert (Hsplit : createSplitDocuments_pdf unit (list Z) (fun _ => 10) (fun _ l => Some l)
    (Some tt) [9; 1; 2; 3; 5; 7; 8] "doc_part{n}"%string =
    Some [mkOutput "doc_part1-3.pdf"%string [0; 1; 2];
          mkOutput "doc_part5.pdf"%string [4];
          mkOutput "doc_part7-9.pdf"%string [6; 7; 8]])
    by (vm_compute; reflexivity).
  split; [exact Hnd|]. split; [exact Hb|]. split; [exact Hsplit|].
  exact (proj2 (SplitClaims.C5_split_one_document_per_range unit (list Z)
    (fun _ => 10) (fun _ l => Some l) tt _ _ _ Hnd Hb Hsplit)).
Defined.

Lemma C6_witness :
  Sorted Z.lt [0; 1; 2; 5; 11] /\
  compact 10 (flatten (compact 10 [0; 1; 2; 5; 11])) = compact 10 [0; 1; 2; 5; 11].
Proof.
  assert (Hs : Sorted Z.lt [0; 1; 2; 5; 11]) by (repeat constructor; lia).
  split; [exact Hs|].
  exact (SplitClaims.C6_compact_idempotent 10 _ Hs).
Defined.

Lemma C7_witness :
  fileName ("part" ++ placeholder ++ "")%string (zrange 7 9) = "part7-9"%string /\
  fileName ("part" ++ placeholder ++ "")%string (zrange 5 5) = "part5"%string.
Proof.
  split.
  - rewrite (NamingClaims.C7_name_first_placeholder 7 9 "part"%string ""%string);
      [reflexivity|lia|reflexivity].
  - rewrite (NamingClaims.C7_name_first_placeholder 5 5 "part"%string ""%string);
      [reflexivity|lia|reflexivity].
Defined.

Lemma C8_witness :
  createProcessedDocument unit (fun _ => Some tt) (fun _ _ _ => None)
    (fun _ b t => mkBlob b t) "report.PDF"%string [Byte.x25; Byte.x50]
    "application/pdf"%string (Some "medium"%string) =
  mkBlob [Byte.x25; Byte.x50] "application/pdf"%string.
Proof.
  apply CompressClaims.C8_compress_fallback_original.
  - vm_compute. reflexivity.
  - intros level pdfDoc k _ _ _. left. reflexivity.
Defined.

Lemma C9_witness :
  exists i j, i <> j /\
    In 2 (nth i (ranges_of 10 [2; 1; 2]) []) /\
    In 2 (nth j (ranges_of 10 [2; 1; 2]) []).
Proof.
  apply SplitClaims.C9_duplicate_in_two_ranges.
  - repeat constructor; lia.
  - vm_compute. lia.
Defined.

Lemma C10_witness :
  split "-" "1-3-5" = ["1"; "3"; "5"]%string /\
  token_pages 10 "1-3-5" = token_pages 10 "1-3" /\
  parsePageRanges "1-3-5" 10 = [1; 2; 3].
Proof.
  split; [reflexivity|]. split.
  - exact (ParseClaims.C10_parse_first_two_fields 10 "1-3-5" "1" "3" ["5"]%string eq_refl).
  - vm_compute. reflexivity.
Defined.

End Witnesses.

(* ================================================================== *)
(** * Properties of the other code paths *)

(** ** Slices and blocks *)

Module SliceFacts.
Import Slices SplitOther Split.

Lemma firstn_add {A : Type} (a b : nat) (l : list A) :
  firstn (a + b) l = firstn a l ++ firstn b (skipn a l).
Proof.
  revert l. induction a as [|a IH]; intro l; [reflexivity|].
  destruct l as [|x t]; simpl.
  - now rewrite firstn_nil.
  - now rewrite IH.
Qed.

Lemma firstn_eq_len {A : Type} (a b : nat) (l : list A) :
  Nat.min a (length l) = Nat.min b (length l) -> firstn a l = firstn b l.
Proof.
  revert a b. induction l as [|x t IH]; intros a b H; simpl.
  - now rewrite !firstn_nil.
  - destruct a as [|a], b as [|b]; simpl in H; try lia; [reflexivity|].
    simpl. f_equal. apply IH. lia.
Qed.

(** Consecutive blocks of [k] elements. *)
Lemma blocks_concat {A : Type} (l : list A) (k j m : nat) :
  concat (map (fun i => firstn k (skipn (i * k) l)) (seq j m)) =
  firstn (m * k) (skipn (j * k) l).
Proof.
  revert j. induction m as [|m IH]; intro j; [reflexivity|].
  simpl seq. simpl map. simpl concat. rewrite IH.
  replace (S m * k)%nat with (k + m * k)%nat by lia.
  rewrite firstn_add, skipn_skipn.
  replace (k + j * k)%nat with (S j * k)%nat by lia. reflexivity.
Qed.

Lemma ceil_div_spec (a b : Z) :
  0 <= a -> 0 < b ->
  0 <= ceil_div a b /\ a <= b * ceil_div a b /\ (0 < a -> 0 < ceil_div a b).
Proof.
  intros Ha Hb. unfold ceil_div.
  pose proof (Z.div_mod (a + b - 1) b ltac:(lia)) as Hdm.
  pose proof (Z.mod_pos_bound (a + b - 1) b Hb) as Hr.
  assert (Hq : 0 <= (a + b - 1) / b) by (apply Z.div_pos; lia).
  split; [exact Hq|]. split; [lia|].
  intro Hpos. nia.
Qed.

Lemma text_chunk_block (lines : list string) (lpp : Z) (i : nat) :
  0 <= lpp ->
  text_chunk lines lpp i = firstn (Z.to_nat lpp) (skipn (i * Z.to_nat lpp) lines).
Proof.
  intro H. unfold text_chunk, slice.
  replace (Z.to_nat (Z.of_nat i * lpp)) with (i * Z.to_nat lpp)%nat by lia.
  apply firstn_eq_len. rewrite length_skipn. lia.
Qed.

Lemma byte_chunk_block (content : list Byte.byte) (cs : Z) (i : nat) :
  0 < cs \/ content = [] ->
  byte_chunk content cs i = firstn (Z.to_nat cs) (skipn (i * Z.to_nat cs) content).
Proof.
  intro H. destruct H as [H | ->].
  - unfold byte_chunk, slice.
    replace (Z.to_nat (Z.of_nat i * cs)) with (i * Z.to_nat cs)%nat by lia.
    apply firstn_eq_len. rewrite length_skipn.
    destruct (Z.of_nat i * cs <? Z.min (Z.of_nat i * cs + cs) (Z.of_nat (length content)))
      eqn:E; [apply Z.ltb_lt in E|apply Z.ltb_ge in E]; lia.
  - unfold byte_chunk, slice. now rewrite !skipn_nil, !firstn_nil.
Qed.

Lemma mapi_from_map {A B C : Type} (h : B -> C) (f : nat -> A -> B) (i : nat) (l : list A) :
  map h (mapi_from f i l) = mapi_from (fun j x => h (f j x)) i l.
Proof. revert i. induction l as [|x t IH]; intro i; simpl; [reflexivity|]. now rewrite IH. Qed.

Lemma mapi_from_index {A B : Type} (f : nat -> B) (i : nat) (l : list A) :
  mapi_from (fun j _ => f j) i l = map f (seq i (length l)).
Proof. revert i. induction l as [|x t IH]; intro i; simpl; [reflexivity|]. now rewrite IH. Qed.

Lemma mapi_from_elem {A B : Type} (f : A -> B) (i : nat) (l : list A) :
  mapi_from (fun _ x => f x) i l = map f l.
Proof. revert i. induction l as [|x t IH]; intro i; simpl; [reflexivity|]. now rewrite IH. Qed.

Lemma mapi_from_length {A B : Type} (f : nat -> A -> B) (i : nat) (l : list A) :
  length (mapi_from f i l) = length l.
Proof. revert i. induction l as [|x t IH]; intro i; simpl; [reflexivity|]. now rewrite IH. Qed.

Lemma mapi_from_nth_error {A B : Type} (f : nat -> A -> B) (i : nat) (l : list A)
    (k : nat) (y : B) :
  nth_error (mapi_from f i l) k = Some y ->
  exists x, nth_error l k = Some x /\ y = f (i + k)%nat x.
Proof.
  revert i k. induction l as [|x t IH]; intros i k H; simpl in H.
  - destruct k; discriminate.
  - destruct k as [|k]; simpl in H.
    + injection H as <-. exists x. split; [reflexivity|]. f_equal. lia.
    + destruct (IH (S i) k H) as [x' [Hx' ->]]. exists x'. split; [exact Hx'|].
      f_equal. lia.
Qed.

Lemma mapi_from_forall {A B : Type} (P : B -> Prop) (f : nat -> A -> B) (i : nat) (l : list A) :
  (forall j x, P (f j x)) -> Forall P (mapi_from f i l).
Proof.
  intro H. revert i. induction l as [|x t IH]; intro i; simpl; constructor; auto.
Qed.

(** [l] cut into [m] blocks of [ceil(len / m)] elements. *)
Lemma blocks_cover {A : Type} (l : list A) (k m : nat) :
  (length l <= m * k)%nat ->
  concat (map (fun i => firstn k (skipn (i * k) l)) (seq 0 m)) = l.
Proof.
  intro H. rewrite blocks_concat. simpl. apply firstn_all2. exact H.
Qed.

End SliceFacts.

Module SplitOtherProps.
Import Slices SplitOther Split SliceFacts.

(** X1: the text branch cuts the lines of the file into consecutive
    blocks, one per requested page number, and names each part after the
    page number at the same position. *)
Theorem split_text_tiles (encode : string -> list Byte.byte)
    (text fileType ext namingPattern : string) (pageNumbers : list Z) :
  pageNumbers <> [] ->
  exists chunks : list (list string),
    length chunks = length pageNumbers /\
    concat chunks = JS.split "010" text /\
    map (fun o => Compress.blob_bytes (content o))
        (split_text encode text fileType ext namingPattern pageNumbers) =
      map (fun c => encode (join newline c)) chunks /\
    map name (split_text encode text fileType ext namingPattern pageNumbers) =
      map (fun p => page_name namingPattern p ext) pageNumbers.
Proof.
  intro Hne.
  set (lines := JS.split "010" text).
  set (n := length pageNumbers).
  set (lpp := ceil_div (Z.of_nat (length lines)) (Z.of_nat n)).
  assert (Hn : (0 < n)%nat) by (unfold n; destruct pageNumbers; [contradiction|simpl; lia]).
  destruct (ceil_div_spec (Z.of_nat (length lines)) (Z.of_nat n) ltac:(lia) ltac:(lia))
    as [Hq [Hcov _]].
  exists (map (text_chunk lines lpp) (seq 0 n)).
  split; [now rewrite length_map, length_seq|].
  split.
  - erewrite map_ext; [|intro i; apply (text_chunk_block lines lpp i Hq)].
    apply blocks_cover. fold lpp in Hcov. nia.
  - unfold split_text, mapi. fold lines. fold n. fold lpp. split.
    + rewrite mapi_from_map. simpl.
      rewrite (mapi_from_index (fun j => encode (join newline (text_chunk lines lpp j)))).
      rewrite map_map. reflexivity.
    + rewrite mapi_from_map. simpl.
      apply (mapi_from_elem (fun p => page_name namingPattern p ext)).
Qed.

Lemma split_binary_contents (content : list Byte.byte) (fileType ext namingPattern : string)
    (pageNumbers : list Z) :
  map (fun o => Compress.blob_bytes (Split.content o))
      (split_binary content fileType ext namingPattern pageNumbers) =
  map (byte_chunk content (ceil_div (Z.of_nat (length content))
                                    (Z.of_nat (length pageNumbers))))
      (seq 0 (length pageNumbers)).
Proof.
  unfold split_binary, mapi. rewrite mapi_from_map. simpl.
  apply mapi_from_index.
Qed.

(** X2: the binary branch cuts the content into one part per requested
    page number; in order, the parts put together give the content back. *)
Theorem split_binary_tiles (content : list Byte.byte) (fileType ext namingPattern : string)
    (pageNumbers : list Z) :
  pageNumbers <> [] ->
  length (split_binary content fileType ext namingPattern pageNumbers) = length pageNumbers /\
  concat (map (fun o => Compress.blob_bytes (Split.content o))
              (split_binary content fileType ext namingPattern pageNumbers)) = content /\
  Forall (fun o => Compress.blob_type (Split.content o) = fileType)
         (split_binary content fileType ext namingPattern pageNumbers).
Proof.
  intro Hne.
  set (n := length pageNumbers).
  set (cs := ceil_div (Z.of_nat (length content)) (Z.of_nat n)).
  assert (Hn : (0 < n)%nat) by (unfold n; destruct pageNumbers; [contradiction|simpl; lia]).
  destruct (ceil_div_spec (Z.of_nat (length content)) (Z.of_nat n) ltac:(lia) ltac:(lia))
    as [Hq [Hcov Hpos]].
  split; [unfold split_binary, mapi; apply mapi_from_length|].
  split.
  - rewrite split_binary_contents. fold n. fold cs.
    assert (Hcs : 0 < cs \/ content = []).
    { destruct content as [|b t]; [right; reflexivity|left; apply Hpos; simpl; lia]. }
    erewrite map_ext; [|intro i; apply (byte_chunk_block content cs i Hcs)].
    apply blocks_cover. fold cs in Hcov. nia.
  - unfold split_binary, mapi.
    apply mapi_from_forall. intros j x. reflexivity.
Qed.

(** X3: despite the guard on [actualEndOffset], a part of the binary
    branch is empty exactly when its start offset is at or past the end of
    the content, as happens when there are more page numbers than bytes. *)
Theorem split_binary_empty_part (content : list Byte.byte)
    (fileType ext namingPattern : string) (pageNumbers : list Z) (index : nat)
    (o : output Compress.Blob) :
  nth_error (split_binary content fileType ext namingPattern pageNumbers) index = Some o ->
  (Compress.blob_bytes (Split.content o) = [] <->
   Z.of_nat (length content) <=
   Z.of_nat index * ceil_div (Z.of_nat (length content)) (Z.of_nat (length pageNumbers))).
Proof.
  intro Ho.
  unfold split_binary, mapi in Ho.
  apply mapi_from_nth_error in Ho as [p [Hp ->]]. simpl.
  assert (Hn : (0 < length pageNumbers)%nat)
    by (destruct pageNumbers; [destruct index; discriminate|simpl; lia]).
  destruct (ceil_div_spec (Z.of_nat (length content)) (Z.of_nat (length pageNumbers))
              ltac:(lia) ltac:(lia)) as [Hq [_ Hpos]].
  set (cs := ceil_div (Z.of_nat (length content)) (Z.of_nat (length pageNumbers))) in *.
  destruct content as [|b t].
  - simpl. unfold byte_chunk, slice. rewrite skipn_nil, firstn_nil. split; [lia|reflexivity].
  - assert (Hcs : 0 < cs) by (apply Hpos; simpl; lia).
    rewrite (byte_chunk_block _ cs index (or_introl Hcs)).
    set (l := b :: t) in *.
    split.
    + intro H. destruct (Z.le_gt_cases (Z.of_nat (length l)) (Z.of_nat index * cs))
        as [Hle|Hgt]; [exact Hle|exfalso].
      assert (Hlen : length (firstn (Z.to_nat cs) (skipn (index * Z.to_nat cs) l)) <> 0%nat).
      { rewrite length_firstn, length_skipn. lia. }
      rewrite H in Hlen. apply Hlen. reflexivity.
    + intro H. rewrite skipn_all2; [apply firstn_nil|]. lia.
Qed.

End SplitOtherProps.

(** ** Strings: printed numbers, [split] and [join], [trim] *)

Module StringFacts.
Import JS Parse Naming Slices Chars.

Lemma str_app_nil_r (s : string) : (s ++ "")%string = s.
Proof. induction s as [|c r IH]; simpl; [reflexivity|]. now rewrite IH. Qed.

Lemma str_app_assoc (a b c : string) : ((a ++ b) ++ c)%string = (a ++ (b ++ c))%string.
Proof. induction a as [|x r IH]; simpl; [reflexivity|]. now rewrite IH. Qed.

Lemma all_chars_app (P : ascii -> bool) (a b : string) :
  all_chars P (a ++ b) = all_chars P a && all_chars P b.
Proof. induction a as [|c r IH]; simpl; [reflexivity|]. rewrite IH. apply andb_assoc. Qed.

Lemma all_chars_impl (P Q : ascii -> bool) (s : string) :
  (forall c, P c = true -> Q c = true) -> all_chars P s = true -> all_chars Q s = true.
Proof.
  intro H. induction s as [|c r IH]; simpl; [reflexivity|].
  intro Hs. apply andb_true_iff in Hs as [Hc Hr]. rewrite (H c Hc). now apply IH.
Qed.

Lemma rev_str_all (P : ascii -> bool) (s acc : string) :
  all_chars P (rev_str s acc) = all_chars P s && all_chars P acc.
Proof.
  revert acc. induction s as [|c r IH]; intro acc; simpl; [reflexivity|].
  rewrite IH. simpl. destruct (P c), (all_chars P r), (all_chars P acc); reflexivity.
Qed.

Lemma rev_str_rev_str (s a b : string) : rev_str (rev_str s a) b = rev_str a (s ++ b).
Proof. revert a. induction s as [|c r IH]; intro a; simpl; [reflexivity|]. now rewrite IH. Qed.

Lemma trim_start_keep (s : string) :
  all_chars (fun c => negb (is_ws c)) s = true -> trim_start s = s.
Proof.
  destruct s as [|c r]; simpl; [reflexivity|].
  intro H. apply andb_true_iff in H as [H _]. destruct (is_ws c); [discriminate|reflexivity].
Qed.

(** [trim] leaves a string without whitespace unchanged. *)
Lemma trim_keep (s : string) :
  all_chars (fun c => negb (is_ws c)) s = true -> trim s = s.
Proof.
  intro H. unfold trim. rewrite (trim_start_keep s H).
  rewrite trim_start_keep.
  - rewrite rev_str_rev_str. simpl. apply str_app_nil_r.
  - rewrite rev_str_all, H. reflexivity.
Qed.

Lemma includes_false (c : ascii) (s : string) :
  all_chars (fun d => negb (Ascii.eqb d c)) s = true -> includes c s = false.
Proof.
  induction s as [|d r IH]; simpl; [reflexivity|].
  intro H. apply andb_true_iff in H as [Hd Hr].
  rewrite (IH Hr). destruct (Ascii.eqb d c); [discriminate|reflexivity].
Qed.

Lemma includes_app (c : ascii) (a b : string) :
  includes c (a ++ b) = includes c a || includes c b.
Proof. induction a as [|d r IH]; simpl; [reflexivity|]. rewrite IH. apply orb_assoc. Qed.

(** The ten decimal digits. *)
Lemma is_digit_cases (c : ascii) :
  is_digit c = true ->
  c = "0"%char \/ c = "1"%char \/ c = "2"%char \/ c = "3"%char \/ c = "4"%char \/
  c = "5"%char \/ c = "6"%char \/ c = "7"%char \/ c = "8"%char \/ c = "9"%char.
Proof.
  destruct c as [[] [] [] [] [] [] [] []]; intro H; vm_compute in H;
    try discriminate H; vm_compute; tauto.
Qed.

Lemma is_digit_props (c : ascii) :
  is_digit c = true ->
  negb (is_ws c) = true /\ negb (Ascii.eqb c "-") = true /\
  negb (Ascii.eqb c ",") = true /\ negb (Ascii.eqb c "{") = true.
Proof.
  intro H. apply is_digit_cases in H.
  repeat destruct H as [H|H]; subst; vm_compute; tauto.
Qed.

Lemma digit_char_val (d : Z) :
  0 <= d <= 9 -> digit_val 10 (ascii_of_nat (48 + Z.to_nat d)) = Some d.
Proof.
  intro H.
  assert (d = 0 \/ d = 1 \/ d = 2 \/ d = 3 \/ d = 4 \/ d = 5 \/ d = 6 \/ d = 7 \/
          d = 8 \/ d = 9) as Hd by lia.
  repeat destruct Hd as [Hd|Hd]; subst; reflexivity.
Qed.

Lemma size_nat_bound (p : positive) : Zpos p < 2 ^ Z.of_nat (Pos.size_nat p).
Proof.
  induction p as [p IH|p IH|]; simpl Pos.size_nat.
  - rewrite Nat2Z.inj_succ, Z.pow_succ_r by lia. rewrite Pos2Z.inj_xI. lia.
  - rewrite Nat2Z.inj_succ, Z.pow_succ_r by lia. rewrite Pos2Z.inj_xO. lia.
  - simpl. lia.
Qed.

(** [digits] prints [n] in front of [acc], and [read_digits] reads it back. *)
Lemma digits_spec (f : nat) : forall (n : Z) (acc : string),
  0 < n < 2 ^ Z.of_nat f ->
  exists s j, digits f n acc = (s ++ acc)%string /\ s <> EmptyString /\
    all_chars is_digit s = true /\ (0 < j)%nat /\
    forall v k rest, read_digits 10 (s ++ rest) v k =
                     read_digits 10 rest (v * 10 ^ Z.of_nat j + n) (k + j).
Proof.
  induction f as [|f IH]; intros n acc Hn.
  - simpl in Hn. lia.
  - rewrite Nat2Z.inj_succ, Z.pow_succ_r in Hn by lia.
    assert (Hm : 0 <= n mod 10 <= 9) by (pose proof (Z.mod_pos_bound n 10); lia).
    pose proof (digit_char_val _ Hm) as Hc.
    cbn [digits].
    set (c := ascii_of_nat (48 + Z.to_nat (n mod 10))) in *.
    assert (Hdc : is_digit c = true) by (unfold is_digit; now rewrite Hc).
    clearbody c.
    destruct (n <? 10) eqn:E.
    + apply Z.ltb_lt in E.
      exists (String c EmptyString), 1%nat.
      split; [reflexivity|]. split; [discriminate|].
      split; [simpl; now rewrite Hdc|]. split; [lia|].
      intros v k rest. cbn [append read_digits]. rewrite Hc.
      rewrite Z.mod_small by lia. f_equal; lia.
    + apply Z.ltb_ge in E.
      assert (Hq : 0 < n / 10 < 2 ^ Z.of_nat f).
      { split.
        - apply Z.div_str_pos. lia.
        - apply Z.div_lt_upper_bound; lia. }
      destruct (IH (n / 10) (String c acc) Hq) as [s [j [Hd [Hne [Hall [Hj Hread]]]]]].
      exists (s ++ String c EmptyString)%string, (S j).
      split; [rewrite Hd, str_app_assoc; reflexivity|].
      split; [destruct s; [contradiction|discriminate]|].
      split; [rewrite all_chars_app, Hall; simpl; now rewrite Hdc|].
      split; [lia|].
      intros v k rest. rewrite str_app_assoc. simpl (String c EmptyString ++ rest)%string.
      rewrite Hread. cbn [read_digits]. rewrite Hc.
      pose proof (Z.div_mod n 10 ltac:(lia)) as Hdm.
      rewrite Nat2Z.inj_succ, Z.pow_succ_r by lia.
      f_equal; [|lia].
      rewrite Hdm at 3. ring.
Qed.

Lemma to_string_pos (p : positive) :
  exists j, to_string (Zpos p) <> EmptyString /\
    all_chars is_digit (to_string (Zpos p)) = true /\ (0 < j)%nat /\
    read_digits 10 (to_string (Zpos p)) 0 0 = (Zpos p, j).
Proof.
  destruct (digits_spec (Pos.size_nat p) (Zpos p) EmptyString
              (conj (eq_refl : 0 < Zpos p) (size_nat_bound p)))
    as [s [j [Hd [Hne [Hall [Hj Hread]]]]]].
  unfold to_string. rewrite Hd, str_app_nil_r.
  exists j. split; [exact Hne|]. split; [exact Hall|]. split; [exact Hj|].
  rewrite <- (str_app_nil_r s), Hread. reflexivity.
Qed.

(** [parseInt] on a non-empty string of decimal digits reads all of them. *)
Lemma parseInt_digits (s : string) :
  s <> EmptyString -> all_chars is_digit s = true ->
  parseInt s = match read_digits 10 s 0 0 with
               | (_, O) => None
               | (v, S _) => Some (1 * v)
               end.
Proof.
  destruct s as [|c r]; [contradiction|]. intros _ H.
  simpl in H. apply andb_true_iff in H as [Hc Hr].
  apply is_digit_cases in Hc.
  repeat destruct Hc as [Hc|Hc]; subst; try reflexivity.
  (* a leading 0: the radix test looks at the next character *)
  destruct r as [|x r]; [reflexivity|].
  simpl in Hr. apply andb_true_iff in Hr as [Hx _].
  apply is_digit_cases in Hx.
  repeat destruct Hx as [Hx|Hx]; subst; reflexivity.
Qed.

(** [parseInt(n.toString())] is [n] for a positive [n]. *)
Lemma parseInt_to_string (p : positive) : parseInt (to_string (Zpos p)) = Some (Zpos p).
Proof.
  destruct (to_string_pos p) as [j [Hne [Hall [Hj Hread]]]].
  rewrite (parseInt_digits _ Hne Hall), Hread.
  destruct j; [lia|]. reflexivity.
Qed.

Lemma to_string_chars (p : positive) (P : ascii -> bool) :
  (forall c, is_digit c = true -> P c = true) -> all_chars P (to_string (Zpos p)) = true.
Proof.
  intro H. destruct (to_string_pos p) as [j [_ [Hall _]]].
  exact (all_chars_impl _ _ _ H Hall).
Qed.

Lemma to_string_no_ws (p : positive) :
  all_chars (fun c => negb (is_ws c)) (to_string (Zpos p)) = true.
Proof. apply to_string_chars. intros c Hc. apply (is_digit_props c Hc). Qed.

Lemma to_string_no (p : positive) (d : ascii) :
  d = "-"%char \/ d = ","%char \/ d = "{"%char -> includes d (to_string (Zpos p)) = false.
Proof.
  intro Hd. apply includes_false, to_string_chars. intros c Hc.
  destruct (is_digit_props c Hc) as [_ [H1 [H2 H3]]].
  destruct Hd as [->|[->| ->]]; assumption.
Qed.

(** [split] distributes over a separator. *)
Lemma split_app_gen (c : ascii) (a b : string) :
  split c (a ++ String c b) = split c a ++ split c b.
Proof.
  induction a as [|d r IH]; simpl.
  - rewrite Ascii.eqb_refl. reflexivity.
  - rewrite IH. destruct (Ascii.eqb d c); [reflexivity|].
    pose proof (ParseFacts.split_nonempty c r) as Hne.
    destruct (split c r) as [|p ps]; [contradiction|]. reflexivity.
Qed.

Lemma join_cons2 (sep x y : string) (t : list string) :
  join sep (x :: y :: t) = (x ++ sep ++ join sep (y :: t))%string.
Proof. reflexivity. Qed.

(** [s.split(c).join(c)] is [s]. *)
Lemma join_split (c : ascii) (s : string) : join (String c EmptyString) (split c s) = s.
Proof.
  induction s as [|d r IH]; simpl; [reflexivity|].
  pose proof (ParseFacts.split_nonempty c r) as Hne.
  destruct (Ascii.eqb d c) eqn:E.
  - apply Ascii.eqb_eq in E. subst d.
    destruct (split c r) as [|p ps]; [contradiction|].
    rewrite join_cons2, IH. reflexivity.
  - destruct (split c r) as [|p ps]; [contradiction|].
    destruct ps as [|q qs]; [simpl in IH; subst; reflexivity|].
    rewrite join_cons2 in IH |- *. rewrite <- IH. reflexivity.
Qed.

(** [parts.join(c).split(c)] is [parts] when no part contains [c]. *)
Lemma split_join (c : ascii) (ts : list string) :
  ts <> [] -> Forall (fun t => includes c t = false) ts ->
  split c (join (String c EmptyString) ts) = ts.
Proof.
  induction ts as [|x t IH]; intros Hne H; [contradiction|].
  inversion H as [|? ? Hx Ht]; subst.
  destruct t as [|y t].
  - simpl. now apply ParseFacts.split_no_sep.
  - rewrite join_cons2. simpl (String c EmptyString ++ _)%string.
    rewrite ParseFacts.split_app_sep by exact Hx.
    f_equal. apply IH; [discriminate|exact Ht].
Qed.

Lemma to_lower_empty (s : string) :
  Compress.to_lower s = EmptyString <-> s = EmptyString.
Proof. destruct s; simpl; split; congruence. Qed.

(** The extension of [a.e], for an [e] without a dot. *)
Lemma fileExtension_dot (a e : string) :
  includes "." e = false ->
  Compress.fileExtension (a ++ String "." e) = Compress.to_lower e.
Proof.
  intro He. unfold Compress.fileExtension.
  rewrite split_app_gen, (ParseFacts.split_no_sep _ _ He), last_last. reflexivity.
Qed.

Lemma fileExtension_nodot (s : string) :
  includes "." s = false -> Compress.fileExtension s = Compress.to_lower s.
Proof.
  intro Hs. unfold Compress.fileExtension. now rewrite (ParseFacts.split_no_sep _ _ Hs).
Qed.

Lemma contains_first_char (c : ascii) (p s : string) :
  includes c s = false -> SpecReading.contains (String c p) s = false.
Proof.
  induction s as [|d r IH]; intro H; [reflexivity|].
  change (includes c (String d r)) with (Ascii.eqb d c || includes c r) in H.
  change (SpecReading.contains (String c p) (String d r))
    with (prefix (String c p) (String d r) || SpecReading.contains (String c p) r).
  apply orb_false_iff in H as [Hd Hr].
  rewrite (IH Hr), orb_false_r.
  rewrite NamingFacts.prefix_cons.
  destruct (ascii_dec c d) as [->|]; [now rewrite Ascii.eqb_refl in Hd|reflexivity].
Qed.

(** [s.replace(pat, rep)] skips a prefix without the first character of [pat]. *)
Lemma replace_first_skip (c : ascii) (p rep a s : string) :
  includes c a = false ->
  replace_first (String c p) rep (a ++ s) = (a ++ replace_first (String c p) rep s)%string.
Proof.
  induction a as [|d r IH]; intro H; [reflexivity|].
  change (includes c (String d r)) with (Ascii.eqb d c || includes c r) in H.
  change (String d r ++ s)%string with (String d (r ++ s)).
  apply orb_false_iff in H as [Hd Hr].
  rewrite NamingFacts.replace_first_cons, NamingFacts.prefix_cons.
  destruct (ascii_dec c d) as [->|]; [now rewrite Ascii.eqb_refl in Hd|].
  now rewrite IH.
Qed.

End StringFacts.

(** ** The page-range parser, beyond the specification *)

Module ParseExtras.
Import JS Parse Naming Slices Chars SplitOther Runs ParseFacts SplitFacts StringFacts.

Lemma dedup_fold_id (l acc : list Z) :
  NoDup (acc ++ l) -> fold_left dedup_step l acc = acc ++ l.
Proof.
  revert acc. induction l as [|x t IH]; intros acc H; simpl; [now rewrite app_nil_r|].
  unfold dedup_step at 2.
  assert (Hx : ~ In x acc).
  { intro Hin. apply NoDup_remove_2 in H. apply H. apply in_or_app. now left. }
  replace (existsb (Z.eqb x) acc) with false.
  - rewrite IH; [now rewrite <- app_assoc|]. now rewrite <- app_assoc.
  - symmetry. apply not_true_iff_false. intro He.
    apply existsb_exists in He as [y [Hy Hxy]]. apply Z.eqb_eq in Hxy. subst y.
    contradiction.
Qed.

Lemma dedup_id (l : list Z) : NoDup l -> dedup l = l.
Proof. intro H. unfold dedup. now rewrite dedup_fold_id. Qed.

Lemma parse_strict_bounds (rangeStr : string) (totalPages : Z) :
  Sorted Z.lt (parsePageRanges rangeStr totalPages) /\
  Forall (fun p => 1 <= p <= totalPages) (parsePageRanges rangeStr totalPages).
Proof.
  split.
  - apply sorted_nodup_lt; [apply sort_sorted|].
    apply (Permutation_NoDup (Permutation_sym (sort_perm _))).
    apply dedup_nodup.
  - apply Forall_forall. intros p Hp.
    apply parse_in in Hp. exact (pages_of_bounds _ _ _ Hp).
Qed.

(** The tokens of [join(",")] are read back one by one. *)
Lemma pages_of_join (n : Z) (toks : list string) :
  toks <> [] -> Forall (fun t => includes "," t = false /\ trim t = t) toks ->
  pages_of (join "," toks) n = concat (map (token_pages n) toks).
Proof.
  intros Hne H. unfold pages_of.
  rewrite split_join; [|exact Hne|].
  - f_equal. f_equal. clear Hne. induction H as [|t ts [_ Ht] _ IH]; simpl; [reflexivity|].
    now rewrite Ht, IH.
  - eapply Forall_impl; [|exact H]. intros t [Ht _]. exact Ht.
Qed.

Lemma pages_of_empty (n : Z) : pages_of (join "," []) n = [].
Proof. reflexivity. Qed.

Lemma page_token (n p : Z) :
  1 <= p <= n ->
  token_pages n (to_string p) = [p] /\ includes "," (to_string p) = false /\
  trim (to_string p) = to_string p.
Proof.
  intro Hp. destruct p as [|q|q]; try lia.
  split; [|split].
  - unfold token_pages. rewrite (to_string_no q "-" (or_introl eq_refl)).
    rewrite parseInt_to_string.
    replace ((0 <? Zpos q) && (Zpos q <=? n)) with true; [reflexivity|].
    symmetry. apply andb_true_iff. split; [apply Z.ltb_lt|apply Z.leb_le]; lia.
  - apply to_string_no. right. now left.
  - apply trim_keep, to_string_no_ws.
Qed.

Lemma range_token (n a b : Z) :
  1 <= a -> a <= b -> b <= n ->
  token_pages n (to_string a ++ "-" ++ to_string b) = zrange a b /\
  includes "," (to_string a ++ "-" ++ to_string b) = false /\
  trim (to_string a ++ "-" ++ to_string b) = (to_string a ++ "-" ++ to_string b)%string.
Proof.
  intros Ha Hab Hb.
  destruct a as [|qa|qa]; try lia. destruct b as [|qb|qb]; try lia.
  split; [|split].
  - unfold token_pages.
    change ("-" ++ to_string (Zpos qb))%string with (String "-" (to_string (Zpos qb))).
    rewrite includes_app_sep.
    rewrite split_app_sep by exact (to_string_no qa "-" (or_introl eq_refl)).
    rewrite (split_no_sep _ _ (to_string_no qb "-" (or_introl eq_refl))).
    cbn [map]. rewrite !trim_keep by apply to_string_no_ws.
    rewrite !parseInt_to_string.
    replace ((0 <? Zpos qa) && (Zpos qb <=? n) && (Zpos qa <=? Zpos qb)) with true;
      [reflexivity|].
    symmetry. rewrite !andb_true_iff. rewrite Z.ltb_lt, !Z.leb_le. lia.
  - rewrite includes_app. rewrite (to_string_no qa "," (or_intror (or_introl eq_refl))).
    simpl. apply to_string_no. right. now left.
  - apply trim_keep. rewrite all_chars_app, to_string_no_ws. simpl.
    apply to_string_no_ws.
Qed.

Lemma last_in (l : list Z) (d : Z) : l <> [] -> In (last l d) l.
Proof.
  intro H. rewrite (app_removelast_last d H) at 2. apply in_or_app. right. now left.
Qed.

Lemma range_text_token (n : Z) (r : list Z) :
  is_run r -> Forall (fun p => 1 <= p <= n) r ->
  token_pages n (range_text r) = r /\ includes "," (range_text r) = false /\
  trim (range_text r) = range_text r.
Proof.
  intros [Hne Hr] Hb.
  assert (Hf : 1 <= first_page r <= n).
  { rewrite Forall_forall in Hb. apply Hb. destruct r; [contradiction|now left]. }
  assert (Hl : 1 <= last_page r <= n).
  { rewrite Forall_forall in Hb. apply Hb. apply last_in. exact Hne. }
  assert (Hle : first_page r <= last_page r)
    by (apply zrange_nonempty; rewrite <- Hr; exact Hne).
  unfold range_text.
  destruct ((length r =? 1)%nat) eqn:E.
  - apply Nat.eqb_eq in E. destruct r as [|x [|y t]]; try discriminate.
    apply page_token. exact Hf.
  - rewrite Hr in E. rewrite NamingFacts.zrange_length_one in E by exact Hle.
    apply Z.eqb_neq in E.
    destruct (range_token n (first_page r) (last_page r) ltac:(lia) Hle ltac:(lia))
      as [H1 H2]. split; [rewrite H1; symmetry; exact Hr|exact H2].
Qed.

Lemma pages_tokens (n : Z) (l : list Z) :
  Forall (fun p => 1 <= p <= n) l -> concat (map (token_pages n) (map to_string l)) = l.
Proof.
  induction 1 as [|x xs Hx _ IH]; [reflexivity|].
  cbn [map concat]. rewrite (proj1 (page_token _ _ Hx)), IH. reflexivity.
Qed.

(** X4: printing in-range page numbers as a comma-separated list and parsing
    the text gives the numbers back, sorted and without repetitions. *)
Theorem parse_printed_pages (l : list Z) (totalPages : Z) :
  Forall (fun p => 1 <= p <= totalPages) l ->
  parsePageRanges (join "," (map to_string l)) totalPages = sort (dedup l).
Proof.
  intro Hb. unfold parsePageRanges. f_equal. f_equal.
  destruct l as [|p t]; [reflexivity|].
  rewrite pages_of_join; [|discriminate|].
  - apply pages_tokens. exact Hb.
  - apply Forall_map. eapply Forall_impl; [|exact Hb].
    intros q Hq. exact (proj2 (page_token _ _ Hq)).
Qed.

(** X5: the placeholder values of the PDF split ([a] or [a-b] for each
    range), joined by commas, parse back to the selection that was split. *)
Theorem parse_range_texts (totalPages : Z) (s : list Z) :
  Sorted Z.lt s -> Forall (fun p => 1 <= p <= totalPages) s ->
  parsePageRanges (join "," (map range_text (Split.ranges_of totalPages s))) totalPages = s.
Proof.
  intros Hs Hb.
  destruct (compact_runs _ _ Hs Hb) as [Hrun [Hcat _]].
  assert (Hgood : Forall (fun r => is_run r /\ Forall (fun p => 1 <= p <= totalPages) r)
                    (Split.ranges_of totalPages s)).
  { apply Forall_forall. intros r Hr. split; [rewrite Forall_forall in Hrun; auto|].
    rewrite Forall_forall in Hb |- *. intros p Hp. apply Hb.
    rewrite <- Hcat. apply in_concat. now exists r. }
  unfold parsePageRanges.
  assert (Hpages : pages_of (join "," (map range_text (Split.ranges_of totalPages s)))
                     totalPages = s).
  { transitivity (concat (Split.ranges_of totalPages s)); [|exact Hcat].
    clear Hcat Hrun.
    destruct (Split.ranges_of totalPages s) as [|r rs]; [reflexivity|].
    rewrite pages_of_join; [|discriminate|].
      + f_equal. rewrite map_map.
        clear -Hgood. induction Hgood as [|r' rs' [Hr Hb'] _ IH]; [reflexivity|].
        cbn [map]. rewrite (proj1 (range_text_token _ _ Hr Hb')). now rewrite IH.
      + apply Forall_map. eapply Forall_impl; [|exact Hgood].
        intros r' [Hr Hb']. exact (proj2 (range_text_token _ _ Hr Hb')). }
  rewrite Hpages, dedup_id by exact (sorted_lt_nodup _ Hs).
  apply sort_id, sorted_lt_le, Hs.
Qed.

(** X6: the parsed selection never has more pages than the document; in
    particular it is empty while no document is loaded ([totalPages] is 0). *)
Theorem parse_length_le_total (rangeStr : string) (totalPages : Z) :
  (length (parsePageRanges rangeStr totalPages) <= Z.to_nat totalPages)%nat.
Proof.
  destruct (parse_strict_bounds rangeStr totalPages) as [Hs Hb].
  replace (Z.to_nat totalPages) with (length (zrange 1 totalPages))
    by (rewrite zrange_length; f_equal; lia).
  apply NoDup_incl_length; [exact (sorted_lt_nodup _ Hs)|].
  intros p Hp. apply in_zrange. rewrite Forall_forall in Hb. exact (Hb p Hp).
Qed.

Lemma split_sep_head (c : ascii) (r : string) : split c (String c r) = EmptyString :: split c r.
Proof. cbn [split]. now rewrite Ascii.eqb_refl. Qed.

(** X7: a token that starts with a hyphen, such as [-3] or [-2-5], adds no
    page: its first field is empty and [parseInt('')] is [NaN]. *)
Theorem token_leading_hyphen (totalPages : Z) (r : string) :
  token_pages totalPages (String "-" r) = [].
Proof.
  unfold token_pages.
  change (includes "-" (String "-" r)) with (Ascii.eqb "-" "-" || includes "-" r).
  rewrite Ascii.eqb_refl, split_sep_head. reflexivity.
Qed.

End ParseExtras.

(** ** Grouping of any page list into ranges *)

Module GroupExtras.
Import Parse Naming Split Runs ParseFacts SplitFacts.

Lemma out_of_range (n page : Z) :
  ((page - 1 <? 0) || (n <=? page - 1)) = negb ((1 <=? page) && (page <=? n)).
Proof.
  destruct (Z.ltb_spec (page - 1) 0), (Z.leb_spec n (page - 1)),
           (Z.leb_spec 1 page), (Z.leb_spec page n); simpl; try reflexivity; lia.
Qed.

Lemma group_concat (n : Z) (prev : option Z) (cur : list Z) (ranges : list (list Z))
    (l : list Z) :
  concat (group_aux n prev cur ranges l) =
  concat ranges ++ cur ++ filter (fun p => (1 <=? p) && (p <=? n)) l.
Proof.
  revert prev cur ranges. induction l as [|page t IH]; intros prev cur ranges.
  - destruct cur as [|c cs]; simpl.
    + now rewrite !app_nil_r.
    + rewrite concat_app. simpl. now rewrite !app_nil_r.
  - cbn [group_aux filter]. rewrite out_of_range.
    destruct ((1 <=? page) && (page <=? n)); simpl negb; cbv iota.
    + assert (Hnew : concat (group_aux n (Some page) [page]
                       (match cur with [] => ranges | _ => ranges ++ [cur] end) t) =
                     concat ranges ++ cur ++ page :: filter (fun p => (1 <=? p) && (p <=? n)) t).
      { rewrite IH. destruct cur as [|c cs]; [reflexivity|].
        rewrite concat_app. simpl. rewrite app_nil_r, <- !app_assoc. reflexivity. }
      destruct prev as [q|]; [|exact Hnew].
      destruct (negb (page =? q + 1)); [exact Hnew|].
      rewrite IH, <- app_assoc. reflexivity.
    + apply IH.
Qed.

Lemma last_page_snoc (cur : list Z) (x : Z) : last_page (cur ++ [x]) = x.
Proof. apply last_last. Qed.

Lemma group_good (n : Z) (prev : option Z) (cur : list Z) (ranges : list (list Z))
    (l : list Z) :
  Sorted Z.le l ->
  (forall q, prev = Some q -> Forall (fun x => q <= x) l) ->
  Forall (fun r => is_run r /\ Forall (fun p => 1 <= p <= n) r) ranges ->
  (cur = [] \/
   ((is_run cur /\ Forall (fun p => 1 <= p <= n) cur) /\
    exists q, prev = Some q /\ (q = last_page cur \/ n < q))) ->
  Forall (fun r => is_run r /\ Forall (fun p => 1 <= p <= n) r)
         (group_aux n prev cur ranges l).
Proof.
  revert prev cur ranges.
  induction l as [|page t IH]; intros prev cur ranges Hs Hprev Hranges Hcur.
  - simpl. destruct Hcur as [->|[Hgood _]]; [exact Hranges|].
    destruct cur as [|c cs]; [exact Hranges|].
    apply Forall_app. split; [exact Hranges|]. constructor; [exact Hgood|constructor].
  - apply Sorted_StronglySorted in Hs as Hss; [|intros ? ? ?; lia].
    inversion Hss as [|? ? _ Hall]; subst.
    inversion Hs as [|? ? Hst _]; subst.
    assert (Hnew : 1 <= page <= n ->
              Forall (fun r => is_run r /\ Forall (fun p => 1 <= p <= n) r)
                (group_aux n (Some page) [page]
                   (match cur with [] => ranges | _ => ranges ++ [cur] end) t)).
    { intro Hp. apply IH; [exact Hst| | |].
      - intros q Hq. injection Hq as <-. exact Hall.
      - destruct cur as [|c cs]; [exact Hranges|].
        apply Forall_app. split; [exact Hranges|].
        destruct Hcur as [Hc|[Hgood _]]; [discriminate|].
        constructor; [exact Hgood|constructor].
      - right. split; [split; [apply is_run_single|repeat constructor; lia]|].
        exists page. split; [reflexivity|]. left. reflexivity. }
    cbn [group_aux]. rewrite out_of_range.
    destruct ((1 <=? page) && (page <=? n)) eqn:E; simpl negb; cbv iota.
    + apply andb_true_iff in E as [E1 E2]. apply Z.leb_le in E1. apply Z.leb_le in E2.
      destruct prev as [q|]; [|exact (Hnew (conj E1 E2))].
      destruct (negb (page =? q + 1)) eqn:Eq; [exact (Hnew (conj E1 E2))|].
      apply negb_false_iff, Z.eqb_eq in Eq.
      apply IH; [exact Hst| |exact Hranges|].
      * intros q' Hq'. injection Hq' as <-. exact Hall.
      * right. destruct Hcur as [->|[[Hrun Hb] [q' [Hq' Hlast]]]].
        -- split; [split; [apply is_run_single|repeat constructor; lia]|].
           exists page. split; [reflexivity|]. left. reflexivity.
        -- injection Hq' as <-. destruct Hlast as [Hlast|Hlast]; [|lia].
           split; [split|].
           ++ rewrite Eq, Hlast. apply is_run_snoc. exact Hrun.
           ++ apply Forall_app. split; [exact Hb|]. repeat constructor; lia.
           ++ exists page. split; [reflexivity|]. left. symmetry. apply last_page_snoc.
    + apply IH; [exact Hst| |exact Hranges|].
      * intros q Hq. injection Hq as <-. exact Hall.
      * destruct Hcur as [->|[[Hrun Hb] [q [Hq Hlast]]]]; [left; reflexivity|].
        right. split; [split; assumption|].
        exists page. split; [reflexivity|].
        assert (Hqp : q <= page)
          by (specialize (Hprev q Hq); inversion Hprev; subst; assumption).
        assert (Hin : 1 <= last_page cur <= n).
        { rewrite Forall_forall in Hb. apply Hb. apply ParseExtras.last_in.
          destruct Hrun as [Hne _]. exact Hne. }
        apply andb_false_iff in E as [E|E]; [apply Z.leb_gt in E|apply Z.leb_gt in E];
          [|right; exact E].
        destruct Hlast as [Hlast|Hlast]; lia.
Qed.

(** X8: whatever page list is given, the ranges put together are exactly
    the sorted in-range pages, repeated ones included: no requested page of
    the document is lost or added. *)
Theorem ranges_concat_in_range (totalPages : Z) (pageNumbers : list Z) :
  concat (ranges_of totalPages pageNumbers) =
  filter (fun p => (1 <=? p) && (p <=? totalPages)) (sort pageNumbers).
Proof. unfold ranges_of. rewrite group_concat. reflexivity. Qed.

(** X9: whatever page list is given, every range is a non-empty run of
    consecutive pages of the document. *)
Theorem ranges_are_runs (totalPages : Z) (pageNumbers : list Z) :
  Forall (fun r => is_run r /\ Forall (fun p => 1 <= p <= totalPages) r)
         (ranges_of totalPages pageNumbers).
Proof.
  unfold ranges_of. apply group_good.
  - apply sort_sorted.
  - intros q Hq. discriminate.
  - constructor.
  - left. reflexivity.
Qed.

End GroupExtras.

(** ** File names: extensions, split names and download names *)

Module NameExtras.
Import Naming Files SplitOther SplitPage CompressPage StringFacts NamingFacts.

Lemma prefix_self_app (p suf : string) : prefix p (p ++ suf) = true.
Proof.
  induction p as [|c r IH]; [destruct suf; reflexivity|].
  cbn [append]. rewrite prefix_cons. destruct (ascii_dec c c); [exact IH|contradiction].
Qed.

Lemma substring_app_len (p s : string) :
  substring (String.length p) (String.length (p ++ s) - String.length p) (p ++ s) = s.
Proof.
  induction p as [|c r IH].
  - cbn [String.length append]. rewrite Nat.sub_0_r. apply substring_full.
  - cbn [String.length append substring Nat.sub]. exact IH.
Qed.

Lemma replace_first_head (pat rep suf : string) :
  pat <> EmptyString -> replace_first pat rep (pat ++ suf) = (rep ++ suf)%string.
Proof.
  destruct pat as [|c p]; intro H; [contradiction|].
  change (String c p ++ suf)%string with (String c (p ++ suf)).
  rewrite replace_first_cons.
  change (String c (p ++ suf)) with (String c p ++ suf)%string.
  rewrite prefix_self_app, substring_app_len. reflexivity.
Qed.

(** [uploadedFile.name.replace('.pdf', '')] removes the first [.pdf] only. *)
Lemma baseName_first_pdf (a b : string) :
  JS.includes "." a = false -> baseName (a ++ ".pdf" ++ b) = (a ++ b)%string.
Proof.
  intro H. unfold baseName.
  rewrite (replace_first_skip "." "pdf" "" a _ H).
  rewrite replace_first_head by discriminate. reflexivity.
Qed.

(** X10: the extension given to the parts of a split is the lower-cased text
    after the last dot of the name, and ["pdf"] when that text is empty. *)
Theorem originalExtension_last_dot (a e : string) :
  JS.includes "." e = false ->
  originalExtension (a ++ String "." e) =
  if String.eqb e EmptyString then "pdf"%string else Compress.to_lower e.
Proof.
  intro He. unfold originalExtension. rewrite fileExtension_dot by exact He.
  destruct e as [|c r]; reflexivity.
Qed.

(** X11: a name without a dot is its own extension: ["README"] gives the
    extension ["readme"]. *)
Theorem originalExtension_no_dot (name : string) :
  JS.includes "." name = false ->
  originalExtension name =
  if String.eqb name EmptyString then "pdf"%string else Compress.to_lower name.
Proof.
  intro H. unfold originalExtension. rewrite fileExtension_nodot by exact H.
  destruct name as [|c r]; reflexivity.
Qed.

(** X12: the parts of [a.pdf] (more generally of [a ++ ".pdf" ++ b], [a]
    without a dot) are named [a ++ b ++ "_part" ++ range ++ ".pdf"], where
    range is [p] or [p-q]. *)
Theorem split_part_name (a b : string) (r : list Z) :
  JS.includes "." a = false -> JS.includes "{" (a ++ b) = false ->
  fullFileName (split_pattern (a ++ ".pdf" ++ b)) r =
  (a ++ b ++ "_part" ++ range_text r ++ ".pdf")%string.
Proof.
  intros Ha Hb. unfold fullFileName, split_pattern.
  rewrite baseName_first_pdf by exact Ha.
  replace ((a ++ b) ++ "_part{n}")%string
    with ((a ++ b ++ "_part") ++ placeholder ++ EmptyString)%string
    by (rewrite !str_app_assoc; reflexivity).
  assert (Hc : SpecReading.contains placeholder (a ++ b ++ "_part") = false).
  { apply contains_first_char. rewrite <- str_app_assoc, includes_app, Hb. reflexivity. }
  unfold fileName, range_text.
  destruct ((length r =? 1)%nat);
    rewrite replace_first_placeholder by exact Hc; rewrite !str_app_assoc; reflexivity.
Qed.

(** X13: the download name of a compressed file replaces a final extension
    [.e] by [_compressed.e]. *)
Theorem downloadName_extension (a e : string) :
  e <> EmptyString -> JS.includes "." e = false -> JS.includes "/" e = false ->
  downloadName (a ++ String "." e) = (a ++ "_compressed." ++ e)%string.
Proof.
  intros Hne Hd Hs. unfold downloadName, strip_extension.
  rewrite split_app_gen, (ParseFacts.split_no_sep _ _ Hd), last_last.
  rewrite rev_app_distr. cbn [rev app].
  destruct (rev (JS.split "." a)) as [|x xs] eqn:R.
  - exfalso. apply (ParseFacts.split_nonempty "." a).
    apply (f_equal (@rev string)) in R. rewrite rev_involutive in R. exact R.
  - replace (String.eqb e EmptyString) with false by (destruct e; [contradiction|reflexivity]).
    rewrite Hs. cbv beta iota zeta. cbn [negb andb].
    rewrite <- R, rev_involutive, join_split. reflexivity.
Qed.

(** X14: a name without a dot is used twice: ["report"] is downloaded as
    ["report_compressed.report"]. *)
Theorem downloadName_no_dot (name : string) :
  JS.includes "." name = false ->
  downloadName name = (name ++ "_compressed." ++ name)%string.
Proof.
  intro H. unfold downloadName, strip_extension.
  rewrite (ParseFacts.split_no_sep _ _ H). reflexivity.
Qed.

End NameExtras.

(** ** The split page *)

Module SplitPageExtras.
Import Parse Naming Split Files SplitOther SplitPage Runs ParseFacts SplitFacts.

Lemma select_pdf_ext (ext : string) :
  negb (existsb (String.eqb ("." ++ ext)) [".pdf"%string]) = false -> ext = "pdf"%string.
Proof.
  cbn [existsb]. rewrite orb_false_r, negb_false_iff, String.eqb_eq.
  cbn [append]. intro H. injection H as H. exact H.
Qed.

Lemma select_step (PdfDoc : Type) (load : list Byte.byte -> option PdfDoc)
    (getPageCount : PdfDoc -> Z) (st : SplitState) (files : list File) :
  match uploadedFile st with
  | None => totalPages st = 0
  | Some f => Compress.fileExtension (file_name f) = "pdf"%string /\
              size f <= maxFileSize /\
              exists d, load (file_bytes f) = Some d /\ totalPages st = getPageCount d
  end ->
  match uploadedFile (handleFileSelect PdfDoc load getPageCount st files) with
  | None => totalPages (handleFileSelect PdfDoc load getPageCount st files) = 0
  | Some f => Compress.fileExtension (file_name f) = "pdf"%string /\
              size f <= maxFileSize /\
              exists d, load (file_bytes f) = Some d /\
                totalPages (handleFileSelect PdfDoc load getPageCount st files) =
                getPageCount d
  end.
Proof.
  intro Hst. destruct files as [|file rest]; [exact Hst|].
  unfold handleFileSelect. cbv beta iota zeta.
  destruct (negb (existsb _ _)) eqn:E; [exact Hst|].
  destruct (maxFileSize <? size file) eqn:S; [exact Hst|].
  destruct (load (file_bytes file)) as [d|] eqn:L; [|exact Hst].
  cbn [uploadedFile totalPages].
  split; [apply select_pdf_ext; exact E|].
  split; [apply Z.ltb_ge; exact S|].
  exists d. split; [exact L|reflexivity].
Qed.

Lemma select_all_inv (PdfDoc : Type) (load : list Byte.byte -> option PdfDoc)
    (getPageCount : PdfDoc -> Z) (sels : list (list File)) : forall st,
  match uploadedFile st with
  | None => totalPages st = 0
  | Some f => Compress.fileExtension (file_name f) = "pdf"%string /\
              size f <= maxFileSize /\
              exists d, load (file_bytes f) = Some d /\ totalPages st = getPageCount d
  end ->
  match uploadedFile (select_all PdfDoc load getPageCount st sels) with
  | None => totalPages (select_all PdfDoc load getPageCount st sels) = 0
  | Some f => Compress.fileExtension (file_name f) = "pdf"%string /\
              size f <= maxFileSize /\
              exists d, load (file_bytes f) = Some d /\
                totalPages (select_all PdfDoc load getPageCount st sels) = getPageCount d
  end.
Proof.
  unfold select_all. induction sels as [|files t IH]; intros st Hst; [exact Hst|].
  cbn [fold_left]. apply IH. apply select_step. exact Hst.
Qed.

Lemma Forall_Forall2 {A B : Type} (P : A -> Prop) (R : A -> B -> Prop)
    (l : list A) (l' : list B) :
  Forall P l -> Forall2 R l l' -> Forall2 (fun x y => P x /\ R x y) l l'.
Proof.
  intros HP HR. induction HR as [|x y l l' Hxy _ IH]; constructor.
  - inversion HP; subst. split; assumption.
  - inversion HP; subst. apply IH. assumption.
Qed.

(** X15: after any sequence of file selections on the split page, the
    selected file, if any, has the extension [pdf], is at most 50 MB and
    loads as a PDF whose page count is the page total of the page; with no
    file selected the total is 0. *)
Theorem selected_file_state (PdfDoc : Type) (load : list Byte.byte -> option PdfDoc)
    (getPageCount : PdfDoc -> Z) (sels : list (list File)) :
  match uploadedFile (select_all PdfDoc load getPageCount initialState sels) with
  | None => totalPages (select_all PdfDoc load getPageCount initialState sels) = 0
  | Some f => Compress.fileExtension (file_name f) = "pdf"%string /\
              size f <= maxFileSize /\
              exists d, load (file_bytes f) = Some d /\
                totalPages (select_all PdfDoc load getPageCount initialState sels) =
                getPageCount d
  end.
Proof. apply select_all_inv. reflexivity. Qed.

(** X16: when [handleSplit] succeeds on the file selected on the split page
    (of a non-[text/] type), each output is the saved PDF of one run of
    consecutive pages of the document, named by the run, and the runs put
    together are the parsed selection. *)
Theorem handleSplit_pdf_parts (encode : string -> list Byte.byte) (PdfDoc : Type)
    (load : list Byte.byte -> option PdfDoc) (getPageCount : PdfDoc -> Z)
    (save : PdfDoc -> list Z -> option (list Byte.byte))
    (decode : list Byte.byte -> string)
    (sels : list (list File)) (f : File) (splitRange : string)
    (outs : list (output Compress.Blob)) :
  uploadedFile (select_all PdfDoc load getPageCount initialState sels) = Some f ->
  prefix "text/" (file_type f) = false ->
  handleSplit encode PdfDoc load getPageCount save decode
    (uploadedFile (select_all PdfDoc load getPageCount initialState sels)) splitRange
    (totalPages (select_all PdfDoc load getPageCount initialState sels)) = SplitDone outs ->
  exists d rs, load (file_bytes f) = Some d /\
    concat rs = parsePageRanges splitRange (getPageCount d) /\
    Forall2 (fun r o =>
               (is_run r /\ Forall (fun p => 1 <= p <= getPageCount d) r) /\
               save d (map (fun p => p - 1) r) = Some (Compress.blob_bytes (content o)) /\
               Compress.blob_type (content o) = "application/pdf"%string /\
               name o = fullFileName (split_pattern (file_name f)) r) rs outs.
Proof.
  intros Hf Ht Hs.
  pose proof (select_all_inv PdfDoc load getPageCount sels initialState eq_refl) as Hinv.
  rewrite Hf in Hinv. destruct Hinv as [Hext [_ [d [Hd Htot]]]].
  rewrite Hf, Htot in Hs. unfold handleSplit in Hs.
  destruct (parsePageRanges splitRange (getPageCount d)) as [|p ps] eqn:Hp;
    [discriminate|].
  rewrite <- Hp in Hs.
  assert (He : originalExtension (file_name f) = "pdf"%string)
    by (unfold originalExtension; rewrite Hext; reflexivity).
  unfold createSplitDocuments in Hs. cbv beta iota zeta in Hs.
  replace (prefix "text/" (file_type f) || String.eqb (originalExtension (file_name f)) "txt")
    with false in Hs by (rewrite Ht, He; reflexivity).
  replace (String.eqb (originalExtension (file_name f)) "pdf") with true in Hs
    by (rewrite He; reflexivity).
  cbv beta iota in Hs. rewrite Hd in Hs.
  unfold createSplitDocuments_pdf in Hs. cbv beta iota zeta in Hs.
  destruct (all_opt _) as [outs'|] eqn:Hall in Hs; [|discriminate].
  injection Hs as <-. apply all_opt_map in Hall.
  destruct (ParseExtras.parse_strict_bounds splitRange (getPageCount d)) as [Hsort Hb].
  destruct (compact_runs _ _ Hsort Hb) as [Hrun [Hcat _]].
  exists d, (ranges_of (getPageCount d) (parsePageRanges splitRange (getPageCount d))).
  split; [exact Hd|]. split; [exact Hcat|].
  assert (Hgood : Forall (fun r => is_run r /\ Forall (fun p => 1 <= p <= getPageCount d) r)
            (ranges_of (getPageCount d) (parsePageRanges splitRange (getPageCount d)))).
  { apply Forall_forall. intros r Hr. split; [rewrite Forall_forall in Hrun; auto|].
    rewrite Forall_forall in Hb |- *. intros q Hq. apply Hb.
    rewrite <- Hcat. apply in_concat. now exists r. }
  eapply Forall2_impl; [|exact (Forall_Forall2 _ _ _ _ Hgood Hall)].
  intros r o [Hr Hso]. split; [exact Hr|].
  unfold split_one, save_blob in Hso.
  destruct (save d (map (fun p => p - 1) r)) as [bytes|]; [|discriminate].
  injection Hso as <-. cbn. repeat split; reflexivity.
Qed.

End SplitPageExtras.

(** ** The compress page *)

Module CompressPageExtras.
Import Compress Files Split CompressPage ProcessOther.

Lemma removeFile_from (i : nat) (l : list File) : forall k,
  map fst (filter (fun xi => negb (Nat.eqb (snd xi) i)) (combine l (seq k (length l)))) =
  if (i <? k)%nat then l else firstn (i - k) l ++ skipn (S i - k) l.
Proof.
  induction l as [|x t IH]; intro k.
  - destruct (i <? k)%nat; [reflexivity|]. rewrite firstn_nil, skipn_nil. reflexivity.
  - cbn [length seq combine filter snd fst].
    destruct (Nat.eqb k i) eqn:E; cbn [negb].
    + apply Nat.eqb_eq in E. subst k. rewrite IH.
      destruct (Nat.ltb_spec i (S i)); [|lia].
      destruct (Nat.ltb_spec i i); [lia|].
      rewrite Nat.sub_diag. replace (S i - i)%nat with 1%nat by lia. reflexivity.
    + apply Nat.eqb_neq in E. cbn [map fst]. rewrite IH.
      destruct (Nat.ltb_spec i (S k)), (Nat.ltb_spec i k); try lia; [reflexivity|].
      replace (i - k)%nat with (S (i - S k)) by lia.
      replace (S i - k)%nat with (S (S i - S k)) by lia.
      reflexivity.
Qed.

Lemma removeFile_slices (index : nat) (prev : list File) :
  removeFile index prev = firstn index prev ++ skipn (S index) prev.
Proof.
  unfold removeFile. rewrite removeFile_from.
  destruct (Nat.ltb_spec index 0); [lia|]. rewrite !Nat.sub_0_r. reflexivity.
Qed.

Lemma Forall_firstn' {A : Type} (P : A -> Prop) (n : nat) (l : list A) :
  Forall P l -> Forall P (firstn n l).
Proof.
  revert l. induction n as [|n IH]; intros l H; [constructor|].
  destruct H as [|x t Hx Ht]; [constructor|]. cbn [firstn]. constructor; auto.
Qed.

Lemma Forall_skipn' {A : Type} (P : A -> Prop) (n : nat) (l : list A) :
  Forall P l -> Forall P (skipn n l).
Proof.
  revert l. induction n as [|n IH]; intros l H; [exact H|].
  destruct H as [|x t Hx Ht]; [constructor|]. cbn [skipn]. auto.
Qed.

Lemma upload_step_inv (l l' : list File) :
  upload_step l l' ->
  Forall (fun f => fileExtension (file_name f) = "pdf"%string /\ size f <= maxFileSize) l ->
  Forall (fun f => fileExtension (file_name f) = "pdf"%string /\ size f <= maxFileSize) l'.
Proof.
  intros [prev files|prev index] H.
  - unfold handleFileUpload. apply Forall_app. split; [exact H|].
    apply Forall_forall. intros f Hf. apply filter_In in Hf as [_ Hv].
    unfold valid_upload in Hv. cbv zeta in Hv.
    apply andb_true_iff in Hv as [Hfmt Hsz].
    apply andb_true_iff in Hfmt as [_ Hin].
    unfold supportedFormats in Hin. cbn [existsb] in Hin.
    rewrite orb_false_r in Hin. apply String.eqb_eq in Hin.
    split; [exact Hin|]. apply Z.leb_le. exact Hsz.
  - rewrite removeFile_slices. apply Forall_app.
    split; [apply Forall_firstn'|apply Forall_skipn']; exact H.
Qed.

Lemma processed_pdf_cases (PdfDoc : Type) (load : list Byte.byte -> option PdfDoc)
    (attempt : string -> nat -> PdfDoc -> option (list Byte.byte))
    (other : string -> list Byte.byte -> string -> Blob)
    (name : string) (arrayBuffer : list Byte.byte) (fileType : string)
    (compressionLevel : option string) :
  fileExtension name = "pdf"%string ->
  createProcessedDocument PdfDoc load attempt other name arrayBuffer fileType
    compressionLevel = mkBlob arrayBuffer fileType \/
  (blob_type (createProcessedDocument PdfDoc load attempt other name arrayBuffer fileType
                compressionLevel) = "application/pdf"%string /\
   (length (blob_bytes (createProcessedDocument PdfDoc load attempt other name arrayBuffer
                         fileType compressionLevel)) < length arrayBuffer)%nat).
Proof.
  intro Hpdf. unfold createProcessedDocument.
  destruct compressionLevel as [level|]; [|left; reflexivity].
  destruct (String.eqb level EmptyString); [left; reflexivity|].
  rewrite Hpdf. cbn [String.eqb Ascii.eqb Bool.eqb andb].
  unfold compress_pdf. cbv zeta.
  destruct (load arrayBuffer) as [pdfDoc|]; [|left; reflexivity].
  destruct (retry _ _ _ _ 4%nat _ _) as [bytes|]; [|left; reflexivity].
  destruct ((length arrayBuffer <=? length bytes)%nat) eqn:E; [left; reflexivity|].
  right. split; [reflexivity|]. apply Nat.leb_gt. exact E.
Qed.

Lemma all_opt_none {A B : Type} (g : A -> option B) (x : A) (l : list A) :
  In x l -> g x = None -> all_opt (map g l) = None.
Proof.
  intros Hin Hg. induction l as [|y t IH]; [contradiction|].
  destruct Hin as [<-|Hin].
  - cbn [map all_opt]. rewrite Hg. reflexivity.
  - cbn [map all_opt]. destruct (g y); [|reflexivity]. rewrite (IH Hin). reflexivity.
Qed.

(** X17: [removeFile(index)] keeps every file but the one at [index], in
    order; an index past the end removes nothing. *)
Theorem removeFile_drops_index (index : nat) (prev : list File) :
  removeFile index prev = firstn index prev ++ skipn (S index) prev.
Proof. apply removeFile_slices. Qed.

(** X18: whatever sequence of uploads and removals is made from the empty
    list, every file in the list has the extension [pdf] and is at most 50 MB. *)
Theorem uploaded_files_valid (l : list File) :
  Relation_Operators.clos_refl_trans_1n _ upload_step [] l ->
  Forall (fun f => fileExtension (file_name f) = "pdf"%string /\ size f <= maxFileSize) l.
Proof.
  intro H.
  assert (Hgen : forall l0 l1, Relation_Operators.clos_refl_trans_1n _ upload_step l0 l1 ->
            Forall (fun f => fileExtension (file_name f) = "pdf"%string /\
                             size f <= maxFileSize) l0 ->
            Forall (fun f => fileExtension (file_name f) = "pdf"%string /\
                             size f <= maxFileSize) l1).
  { intros l0 l1 Hrt. induction Hrt as [|x y z Hxy _ IH]; intro Hx; [exact Hx|].
    apply IH. exact (upload_step_inv _ _ Hxy Hx). }
  exact (Hgen [] l H (Forall_nil _)).
Qed.

(** X19: a completed [compressFiles] gives one record per uploaded file, in
    order, with its name, type and original size; a file of another MIME type
    than [application/pdf] whose name ends in [.pdf] is never reported larger
    than it was. *)
Theorem compressFiles_records (PdfDoc : Type) (load : list Byte.byte -> option PdfDoc)
    (save_compressed : PdfDoc -> option (list Byte.byte))
    (load_opts : list Byte.byte -> option PdfDoc)
    (attempt : string -> nat -> PdfDoc -> option (list Byte.byte))
    (other : string -> list Byte.byte -> string -> Blob)
    (files : list File) (lvl : level) (cfs : list CompressedFile) :
  compressFiles PdfDoc load save_compressed load_opts attempt other files lvl =
    CompressionDone cfs ->
  Forall2 (fun f c =>
             cf_name c = file_name f /\ originalSize c = size f /\
             cf_type c = file_type f /\
             compressedSize c = Z.of_nat (length (blob_bytes (cf_blob c))) /\
             (file_type f <> "application/pdf"%string ->
              fileExtension (file_name f) = "pdf"%string ->
              compressedSize c <= originalSize c)) files cfs.
Proof.
  intro H. unfold compressFiles in H.
  destruct files as [|f0 fs]; [discriminate|].
  destruct (all_opt _) as [cfs'|] eqn:Hall in H; [|discriminate].
  injection H as <-. apply SplitFacts.all_opt_map in Hall.
  eapply Forall2_impl; [|exact Hall]. intros f c Hc.
  unfold compress_one in Hc.
  destruct (String.eqb (file_type f) "application/pdf") eqn:T.
  - destruct (load (file_bytes f)) as [pdfDoc|]; [|discriminate].
    destruct (save_compressed pdfDoc) as [bytes|]; [|discriminate].
    injection Hc as <-. cbn. repeat split; try reflexivity.
    intro Hne. apply String.eqb_eq in T. contradiction.
  - pose proof (processed_pdf_cases PdfDoc load_opts attempt other (file_name f)
                  (file_bytes f) (file_type f) (Some (level_name lvl))) as Hcases.
    set (b := createProcessedDocument PdfDoc load_opts attempt other (file_name f)
                (file_bytes f) (file_type f) (Some (level_name lvl))) in Hc, Hcases.
    clearbody b. cbv zeta in Hc. injection Hc as <-.
    cbn [cf_name originalSize cf_type compressedSize cf_blob].
    repeat split; try reflexivity.
    intros _ Hpdf. unfold size.
    destruct (Hcases Hpdf) as [Hb|[_ Hlt]].
    + rewrite Hb. cbn [blob_bytes]. lia.
    + lia.
Qed.

(** X20: one uploaded file of type [application/pdf] that pdf-lib cannot
    load makes the whole [compressFiles] fail, whatever the other files. *)
Theorem compressFiles_load_error (PdfDoc : Type) (load : list Byte.byte -> option PdfDoc)
    (save_compressed : PdfDoc -> option (list Byte.byte))
    (load_opts : list Byte.byte -> option PdfDoc)
    (attempt : string -> nat -> PdfDoc -> option (list Byte.byte))
    (other : string -> list Byte.byte -> string -> Blob)
    (files : list File) (lvl : level) (f : File) :
  In f files -> file_type f = "application/pdf"%string -> load (file_bytes f) = None ->
  compressFiles PdfDoc load save_compressed load_opts attempt other files lvl =
    CompressionFailed.
Proof.
  intros Hin Ht Hl. unfold compressFiles.
  destruct files as [|g gs]; [contradiction|].
  rewrite (all_opt_none _ f _ Hin); [reflexivity|].
  unfold compress_one. rewrite Ht, Hl. reflexivity.
Qed.

(** X21: for a file whose name ends in [.pdf], [createProcessedDocument]
    returns the original content, or a PDF strictly smaller than it. *)
Theorem processed_pdf_never_larger (PdfDoc : Type) (load : list Byte.byte -> option PdfDoc)
    (attempt : string -> nat -> PdfDoc -> option (list Byte.byte))
    (other : string -> list Byte.byte -> string -> Blob)
    (name : string) (arrayBuffer : list Byte.byte) (fileType : string)
    (compressionLevel : option string) :
  fileExtension name = "pdf"%string ->
  createProcessedDocument PdfDoc load attempt other name arrayBuffer fileType
    compressionLevel = mkBlob arrayBuffer fileType \/
  (blob_type (createProcessedDocument PdfDoc load attempt other name arrayBuffer fileType
                compressionLevel) = "application/pdf"%string /\
   (length (blob_bytes (createProcessedDocument PdfDoc load attempt other name arrayBuffer
                         fileType compressionLevel)) < length arrayBuffer)%nat).
Proof. apply processed_pdf_cases. Qed.

(** X22: a file that is neither a PDF nor a JPEG or PNG image by its name
    comes back from [createProcessedDocument] unchanged. *)
Theorem processDocument_other_types (Img : Type)
    (load_image : list Byte.byte -> string -> option Img) (has_context : bool)
    (to_blob : Img -> string -> Z -> option Blob)
    (PdfDoc : Type) (load : list Byte.byte -> option PdfDoc)
    (attempt : string -> nat -> PdfDoc -> option (list Byte.byte))
    (name : string) (arrayBuffer : list Byte.byte) (fileType : string)
    (compressionLevel : option string) :
  ~ In (fileExtension name) ["pdf"; "jpg"; "jpeg"; "png"]%string ->
  processDocument Img load_image has_context to_blob PdfDoc load attempt name arrayBuffer
    fileType compressionLevel = mkBlob arrayBuffer fileType.
Proof.
  intro Hn. unfold processDocument, createProcessedDocument.
  destruct compressionLevel as [level|]; [|reflexivity].
  destruct (String.eqb level EmptyString); [reflexivity|].
  destruct (String.eqb (fileExtension name) "pdf") eqn:E.
  - apply String.eqb_eq in E. exfalso. apply Hn. left. symmetry. exact E.
  - unfold other_branch.
    destruct (existsb (String.eqb (fileExtension name)) ["jpg"; "jpeg"; "png"]%string) eqn:Ei;
      [|reflexivity].
    exfalso. apply existsb_exists in Ei as [e [He Hee]].
    apply String.eqb_eq in Hee. subst e. apply Hn. right. exact He.
Qed.

End CompressPageExtras.

(** ** [createMergedDocument] on binary files *)

Module MergeExtras.
Import Compress Files Merge.

Lemma firstn_len_app {A : Type} (pre rest : list A) : firstn (length pre) (pre ++ rest) = pre.
Proof. induction pre as [|x t IH]; [reflexivity|]. cbn. rewrite IH. reflexivity. Qed.

Lemma skipn_len_app {A : Type} (pre rest : list A) (n : nat) :
  skipn (length pre + n) (pre ++ rest) = skipn n rest.
Proof. induction pre as [|x t IH]; [reflexivity|]. cbn. exact IH. Qed.

Lemma copy_all_concat (bufs : list (list Byte.byte)) : forall pre rest,
  length rest = length (concat bufs) ->
  copy_all (pre ++ rest) (length pre) bufs = Some (pre ++ concat bufs).
Proof.
  induction bufs as [|b t IH]; intros pre rest Hlen.
  - cbn [concat length] in *. destruct rest; [|discriminate]. reflexivity.
  - cbn [copy_all concat]. cbn [concat] in Hlen. rewrite length_app in Hlen.
    unfold set_at.
    replace (length pre + length b <=? length (pre ++ rest))%nat with true
      by (symmetry; apply Nat.leb_le; rewrite length_app; lia).
    rewrite firstn_len_app, skipn_len_app.
    replace (length pre + length b)%nat with (length (pre ++ b)) by apply length_app.
    rewrite (app_assoc pre b). rewrite IH by (rewrite length_skipn; lia).
    rewrite <- app_assoc. reflexivity.
Qed.

Lemma fold_sizes (bufs : list (list Byte.byte)) : forall k,
  fold_left (fun sum b => (sum + length b)%nat) bufs k = (k + length (concat bufs))%nat.
Proof.
  induction bufs as [|b t IH]; intro k; cbn [fold_left concat length]; [lia|].
  rewrite IH, length_app. lia.
Qed.

Lemma concat_buffers_ok (bufs : list (list Byte.byte)) :
  concat_buffers bufs = Some (concat bufs).
Proof.
  unfold concat_buffers. rewrite fold_sizes.
  exact (copy_all_concat bufs [] _ (repeat_length _ _)).
Qed.

(** X23: merging files whose first file is neither a PDF nor text gives the
    bytes of all the files one after the other, with the type of the first
    file; the offset copy never fails. *)
Theorem merged_binary_concat (merge_pdf : list (list Byte.byte) -> option (list Byte.byte))
    (read_text : list Byte.byte -> option string) (encode : string -> list Byte.byte)
    (firstFile : File) (rest : list File) :
  fileExtension (file_name firstFile) <> "pdf"%string ->
  prefix "text/" (file_type firstFile) = false ->
  fileExtension (file_name firstFile) <> "txt"%string ->
  fileExtension (file_name firstFile) <> "csv"%string ->
  createMergedDocument merge_pdf read_text encode (firstFile :: rest) =
  Merged (mkBlob (concat (map file_bytes (firstFile :: rest))) (file_type firstFile)).
Proof.
  intros Hpdf Htext Htxt Hcsv. unfold createMergedDocument. cbv beta iota zeta.
  rewrite (proj2 (String.eqb_neq _ _) Hpdf), Htext,
          (proj2 (String.eqb_neq _ _) Htxt), (proj2 (String.eqb_neq _ _) Hcsv).
  cbn [orb]. rewrite concat_buffers_ok.
  destruct (existsb _ _); reflexivity.
Qed.

End MergeExtras.

(** ** Instances of the properties above *)

Module ExtraWitnesses.
Import JS Parse Naming Split Compress Files Slices SplitOther SplitPage CompressPage
       ProcessOther Merge.

Lemma X1_witness :
  [1; 2] <> [] /\
  exists chunks : list (list string),
    length chunks = length [1; 2] /\
    concat chunks = JS.split "010" ("a" ++ String "010" "b" ++ String "010" "c")%string /\
    map (fun o => blob_bytes (content o))
        (split_text list_byte_of_string ("a" ++ String "010" "b" ++ String "010" "c")
           "text/plain" "txt" "notes_{n}" [1; 2]) =
      map (fun c => list_byte_of_string (join newline c)) chunks /\
    map name (split_text list_byte_of_string ("a" ++ String "010" "b" ++ String "010" "c")
                "text/plain" "txt" "notes_{n}" [1; 2]) =
      map (fun p => page_name "notes_{n}" p "txt") [1; 2].
Proof.
  split; [discriminate|].
  apply SplitOtherProps.split_text_tiles. discriminate.
Defined.

Lemma X2_witness :
  [1; 2] <> [] /\
  length (split_binary [Byte.x01; Byte.x02; Byte.x03] "application/msword" "doc"
            "part{n}" [1; 2]) = length [1; 2] /\
  concat (map (fun o => blob_bytes (content o))
              (split_binary [Byte.x01; Byte.x02; Byte.x03] "application/msword" "doc"
                 "part{n}" [1; 2])) = [Byte.x01; Byte.x02; Byte.x03] /\
  Forall (fun o => blob_type (content o) = "application/msword"%string)
         (split_binary [Byte.x01; Byte.x02; Byte.x03] "application/msword" "doc"
            "part{n}" [1; 2]).
Proof.
  split; [discriminate|].
  apply SplitOtherProps.split_binary_tiles. discriminate.
Defined.

Lemma X3_witness :
  nth_error (split_binary [Byte.x01] "application/msword" "doc" "part{n}" [1; 2; 3]) 2 =
    Some (mkOutput "part3.doc" (mkBlob [] "application/msword")) /\
  (blob_bytes (content (mkOutput "part3.doc" (mkBlob [] "application/msword"))) = [] <->
   Z.of_nat (length [Byte.x01]) <=
   Z.of_nat 2 * ceil_div (Z.of_nat (length [Byte.x01])) (Z.of_nat (length [1; 2; 3]))).
Proof.
  assert (H : nth_error (split_binary [Byte.x01] "application/msword" "doc" "part{n}"
                           [1; 2; 3]) 2 =
              Some (mkOutput "part3.doc" (mkBlob [] "application/msword")))
    by (vm_compute; reflexivity).
  split; [exact H|].
  exact (SplitOtherProps.split_binary_empty_part _ _ _ _ _ _ _ H).
Defined.

Lemma X4_witness :
  Forall (fun p => 1 <= p <= 5) [3; 1; 3] /\
  parsePageRanges (join "," (map to_string [3; 1; 3])) 5 = sort (dedup [3; 1; 3]).
Proof.
  assert (Hb : Forall (fun p => 1 <= p <= 5) [3; 1; 3]) by (repeat constructor; lia).
  split; [exact Hb|]. exact (ParseExtras.parse_printed_pages _ _ Hb).
Defined.

Lemma X5_witness :
  Sorted Z.lt [1; 2; 4] /\ Forall (fun p => 1 <= p <= 5) [1; 2; 4] /\
  parsePageRanges (join "," (map range_text (ranges_of 5 [1; 2; 4]))) 5 = [1; 2; 4].
Proof.
  assert (Hs : Sorted Z.lt [1; 2; 4]) by (repeat constructor; lia).
  assert (Hb : Forall (fun p => 1 <= p <= 5) [1; 2; 4]) by (repeat constructor; lia).
  split; [exact Hs|]. split; [exact Hb|].
  exact (ParseExtras.parse_range_texts _ _ Hs Hb).
Defined.

Lemma X10_witness :
  includes "." "PDF" = false /\
  originalExtension ("a.b" ++ String "." "PDF") =
    if String.eqb "PDF" EmptyString then "pdf"%string else to_lower "PDF".
Proof.
  assert (H : includes "." "PDF" = false) by reflexivity.
  split; [exact H|]. exact (NameExtras.originalExtension_last_dot _ _ H).
Defined.

Lemma X11_witness :
  includes "." "README" = false /\
  originalExtension "README" =
    if String.eqb "README" EmptyString then "pdf"%string else to_lower "README".
Proof.
  assert (H : includes "." "README" = false) by reflexivity.
  split; [exact H|]. exact (NameExtras.originalExtension_no_dot _ H).
Defined.

Lemma X12_witness :
  includes "." "report" = false /\ includes "{" ("report" ++ "") = false /\
  fullFileName (split_pattern ("report" ++ ".pdf" ++ "")) [4; 5; 6] =
  ("report" ++ "" ++ "_part" ++ range_text [4; 5; 6] ++ ".pdf")%string.
Proof.
  assert (Ha : includes "." "report" = false) by reflexivity.
  assert (Hb : includes "{" ("report" ++ "") = false) by reflexivity.
  split; [exact Ha|]. split; [exact Hb|].
  exact (NameExtras.split_part_name _ _ _ Ha Hb).
Defined.

Lemma X13_witness :
  "pdf"%string <> EmptyString /\ includes "." "pdf" = false /\ includes "/" "pdf" = false /\
  downloadName ("scan.v2" ++ String "." "pdf") = ("scan.v2" ++ "_compressed." ++ "pdf")%string.
Proof.
  assert (Hne : "pdf"%string <> EmptyString) by discriminate.
  assert (Hd : includes "." "pdf" = false) by reflexivity.
  assert (Hs : includes "/" "pdf" = false) by reflexivity.
  split; [exact Hne|]. split; [exact Hd|]. split; [exact Hs|].
  exact (NameExtras.downloadName_extension _ _ Hne Hd Hs).
Defined.

Lemma X14_witness :
  includes "." "report" = false /\
  downloadName "report" = ("report" ++ "_compressed." ++ "report")%string.
Proof.
  assert (H : includes "." "report" = false) by reflexivity.
  split; [exact H|]. exact (NameExtras.downloadName_no_dot _ H).
Defined.

Lemma X16_witness :
  uploadedFile (select_all unit (fun _ => Some tt) (fun _ => 3) initialState
                  [[mkFile "a.pdf" "application/pdf" []]]) =
    Some (mkFile "a.pdf" "application/pdf" []) /\
  prefix "text/" "application/pdf" = false /\
  handleSplit list_byte_of_string unit (fun _ => Some tt) (fun _ => 3)
    (fun _ _ => Some []) string_of_list_byte
    (uploadedFile (select_all unit (fun _ => Some tt) (fun _ => 3) initialState
                     [[mkFile "a.pdf" "application/pdf" []]])) "1-2"
    (totalPages (select_all unit (fun _ => Some tt) (fun _ => 3) initialState
                   [[mkFile "a.pdf" "application/pdf" []]])) =
    SplitDone [mkOutput "a_part1-2.pdf" (mkBlob [] "application/pdf")] /\
  exists d rs, (fun _ : list Byte.byte => Some tt) (file_bytes (mkFile "a.pdf" "application/pdf" [])) = Some d /\
    concat rs = parsePageRanges "1-2" ((fun _ : unit => 3) d) /\
    Forall2 (fun r o =>
               (Runs.is_run r /\ Forall (fun p => 1 <= p <= (fun _ : unit => 3) d) r) /\
               (fun _ _ => Some []) d (map (fun p => p - 1) r) = Some (blob_bytes (content o)) /\
               blob_type (content o) = "application/pdf"%string /\
               name o = fullFileName (split_pattern (file_name (mkFile "a.pdf" "application/pdf" []))) r)
      rs [mkOutput "a_part1-2.pdf" (mkBlob [] "application/pdf")].
Proof.
  assert (H1 : uploadedFile (select_all unit (fun _ => Some tt) (fun _ => 3) initialState
                               [[mkFile "a.pdf" "application/pdf" []]]) =
                 Some (mkFile "a.pdf" "application/pdf" [])) by (vm_compute; reflexivity).
  assert (H2 : prefix "text/" "application/pdf" = false) by reflexivity.
  assert (H3 : handleSplit list_byte_of_string unit (fun _ => Some tt) (fun _ => 3)
                 (fun _ _ => Some []) string_of_list_byte
                 (uploadedFile (select_all unit (fun _ => Some tt) (fun _ => 3) initialState
                                  [[mkFile "a.pdf" "application/pdf" []]])) "1-2"
                 (totalPages (select_all unit (fun _ => Some tt) (fun _ => 3) initialState
                                [[mkFile "a.pdf" "application/pdf" []]])) =
               SplitDone [mkOutput "a_part1-2.pdf" (mkBlob [] "application/pdf")])
    by (vm_compute; reflexivity).
  split; [exact H1|]. split; [exact H2|]. split; [exact H3|].
  exact (SplitPageExtras.handleSplit_pdf_parts _ _ _ _ _ _ _ _ _ _ H1 H2 H3).
Defined.

Lemma X18_witness :
  Relation_Operators.clos_refl_trans_1n _ upload_step []
    (removeFile 1 (handleFileUpload [] [mkFile "a.pdf" "application/pdf" [];
                                        mkFile "b.PDF" "application/pdf" [Byte.x01];
                                        mkFile "c.txt" "text/plain" []])) /\
  Forall (fun f => fileExtension (file_name f) = "pdf"%string /\ size f <= maxFileSize)
    (removeFile 1 (handleFileUpload [] [mkFile "a.pdf" "application/pdf" [];
                                        mkFile "b.PDF" "application/pdf" [Byte.x01];
                                        mkFile "c.txt" "text/plain" []])).
Proof.
  assert (H : Relation_Operators.clos_refl_trans_1n _ upload_step []
                (removeFile 1 (handleFileUpload [] [mkFile "a.pdf" "application/pdf" [];
                                                    mkFile "b.PDF" "application/pdf" [Byte.x01];
                                                    mkFile "c.txt" "text/plain" []]))).
  { eapply Relation_Operators.rt1n_trans; [apply step_upload|].
    eapply Relation_Operators.rt1n_trans; [apply step_remove|].
    apply Relation_Operators.rt1n_refl. }
  split; [exact H|]. exact (CompressPageExtras.uploaded_files_valid _ H).
Defined.

Lemma X19_witness :
  compressFiles unit (fun _ => Some tt) (fun _ => Some [Byte.x01]) (fun _ => None)
    (fun _ _ _ => None) (fun _ b t => mkBlob b t)
    [mkFile "a.pdf" "application/pdf" [Byte.x01; Byte.x02]; mkFile "b.pdf" "" [Byte.x03]]
    Medium =
  CompressionDone [mkCompressedFile "a.pdf" 2 1 (mkBlob [Byte.x01] "application/pdf")
                     "application/pdf";
                   mkCompressedFile "b.pdf" 1 1 (mkBlob [Byte.x03] "") ""] /\
  Forall2 (fun f c =>
             cf_name c = file_name f /\ originalSize c = size f /\
             cf_type c = file_type f /\
             compressedSize c = Z.of_nat (length (blob_bytes (cf_blob c))) /\
             (file_type f <> "application/pdf"%string ->
              fileExtension (file_name f) = "pdf"%string ->
              compressedSize c <= originalSize c))
    [mkFile "a.pdf" "application/pdf" [Byte.x01; Byte.x02]; mkFile "b.pdf" "" [Byte.x03]]
    [mkCompressedFile "a.pdf" 2 1 (mkBlob [Byte.x01] "application/pdf") "application/pdf";
     mkCompressedFile "b.pdf" 1 1 (mkBlob [Byte.x03] "") ""].
Proof.
  assert (H : compressFiles unit (fun _ => Some tt) (fun _ => Some [Byte.x01])
                (fun _ => None) (fun _ _ _ => None) (fun _ b t => mkBlob b t)
                [mkFile "a.pdf" "application/pdf" [Byte.x01; Byte.x02];
                 mkFile "b.pdf" "" [Byte.x03]] Medium =
              CompressionDone [mkCompressedFile "a.pdf" 2 1 (mkBlob [Byte.x01] "application/pdf")
                                 "application/pdf";
                               mkCompressedFile "b.pdf" 1 1 (mkBlob [Byte.x03] "") ""])
    by (vm_compute; reflexivity).
  split; [exact H|]. exact (CompressPageExtras.compressFiles_records _ _ _ _ _ _ _ _ _ H).
Defined.

Lemma X20_witness :
  In (mkFile "b.pdf" "application/pdf" [Byte.x02])
     [mkFile "a.docx" "application/msword" [Byte.x01];
      mkFile "b.pdf" "application/pdf" [Byte.x02]] /\
  file_type (mkFile "b.pdf" "application/pdf" [Byte.x02]) = "application/pdf"%string /\
  (fun _ : list Byte.byte => @None unit) (file_bytes (mkFile "b.pdf" "application/pdf" [Byte.x02])) = None /\
  compressFiles unit (fun _ => None) (fun _ => Some [Byte.x01]) (fun _ => None)
    (fun _ _ _ => None) (fun _ b t => mkBlob b t)
    [mkFile "a.docx" "application/msword" [Byte.x01];
     mkFile "b.pdf" "application/pdf" [Byte.x02]] High = CompressionFailed.
Proof.
  assert (Hin : In (mkFile "b.pdf" "application/pdf" [Byte.x02])
                   [mkFile "a.docx" "application/msword" [Byte.x01];
                    mkFile "b.pdf" "application/pdf" [Byte.x02]])
    by (right; left; reflexivity).
  assert (Ht : file_type (mkFile "b.pdf" "application/pdf" [Byte.x02]) =
               "application/pdf"%string) by reflexivity.
  assert (Hl : (fun _ : list Byte.byte => @None unit)
                 (file_bytes (mkFile "b.pdf" "application/pdf" [Byte.x02])) = None)
    by reflexivity.
  split; [exact Hin|]. split; [exact Ht|]. split; [exact Hl|].
  exact (CompressPageExtras.compressFiles_load_error _ _ _ _ _ _ _ _ _ Hin Ht Hl).
Defined.

Lemma X21_witness :
  fileExtension "scan.PDF" = "pdf"%string /\
  (createProcessedDocument unit (fun _ => Some tt) (fun _ _ _ => Some [Byte.x01])
     (fun _ b t => mkBlob b t) "scan.PDF" [Byte.x01; Byte.x02; Byte.x03] ""
     (Some "high"%string) = mkBlob [Byte.x01; Byte.x02; Byte.x03] "" \/
   (blob_type (createProcessedDocument unit (fun _ => Some tt) (fun _ _ _ => Some [Byte.x01])
                 (fun _ b t => mkBlob b t) "scan.PDF" [Byte.x01; Byte.x02; Byte.x03] ""
                 (Some "high"%string)) = "application/pdf"%string /\
    (length (blob_bytes (createProcessedDocument unit (fun _ => Some tt)
                           (fun _ _ _ => Some [Byte.x01]) (fun _ b t => mkBlob b t)
                           "scan.PDF" [Byte.x01; Byte.x02; Byte.x03] ""
                           (Some "high"%string))) < length [Byte.x01; Byte.x02; Byte.x03])%nat)).
Proof.
  assert (H : fileExtension "scan.PDF" = "pdf"%string) by (vm_compute; reflexivity).
  split; [exact H|]. exact (CompressPageExtras.processed_pdf_never_larger _ _ _ _ _ _ _ _ H).
Defined.

Lemma X22_witness :
  ~ In (fileExtension "notes.txt") ["pdf"; "jpg"; "jpeg"; "png"]%string /\
  processDocument unit (fun _ _ => None) true (fun _ _ _ => None) unit (fun _ => Some tt)
    (fun _ _ _ => Some []) "notes.txt" [Byte.x01] "text/plain" (Some "high"%string) =
  mkBlob [Byte.x01] "text/plain".
Proof.
  assert (H : ~ In (fileExtension "notes.txt") ["pdf"; "jpg"; "jpeg"; "png"]%string).
  { intro Hin. vm_compute in Hin.
    repeat (destruct Hin as [Hin|Hin]; [discriminate Hin|]). exact Hin. }
  split; [exact H|].
  exact (CompressPageExtras.processDocument_other_types _ _ _ _ _ _ _ _ _ _ _ H).
Defined.

Lemma X23_witness :
  fileExtension (file_name (mkFile "a.docx" "application/msword" [Byte.x01])) <> "pdf"%string /\
  prefix "text/" (file_type (mkFile "a.docx" "application/msword" [Byte.x01])) = false /\
  fileExtension (file_name (mkFile "a.docx" "application/msword" [Byte.x01])) <> "txt"%string /\
  fileExtension (file_name (mkFile "a.docx" "application/msword" [Byte.x01])) <> "csv"%string /\
  createMergedDocument (fun _ => None) (fun _ => None) list_byte_of_string
    (mkFile "a.docx" "application/msword" [Byte.x01] ::
     [mkFile "b.bin" "" [Byte.x02; Byte.x03]]) =
  Merged (mkBlob (concat (map file_bytes (mkFile "a.docx" "application/msword" [Byte.x01] ::
                                          [mkFile "b.bin" "" [Byte.x02; Byte.x03]])))
            (file_type (mkFile "a.docx" "application/msword" [Byte.x01]))).
Proof.
  assert (H1 : fileExtension (file_name (mkFile "a.docx" "application/msword" [Byte.x01]))
               <> "pdf"%string) by (intro H; vm_compute in H; discriminate H).
  assert (H2 : prefix "text/" (file_type (mkFile "a.docx" "application/msword" [Byte.x01]))
               = false) by reflexivity.
  assert (H3 : fileExtension (file_name (mkFile "a.docx" "application/msword" [Byte.x01]))
               <> "txt"%string) by (intro H; vm_compute in H; discriminate H).
  assert (H4 : fileExtension (file_name (mkFile "a.docx" "application/msword" [Byte.x01]))
               <> "csv"%string) by (intro H; vm_compute in H; discriminate H).
  split; [exact H1|]. split; [exact H2|]. split; [exact H3|]. split; [exact H4|].
  exact (MergeExtras.merged_binary_concat _ _ _ _ _ H1 H2 H3 H4).
Defined.

End ExtraWitnesses.
